(** * AI Trip Planner front end: the chat/session and auth state managers

    A shallow embedding of the client-side state containers of the
    trip-planner front end (contexts/chat-context.tsx, the auth context and
    the message bubble), with the properties their specification states.

    Conventions of the embedding:
    - a JavaScript string is the list of its UTF-16 code units, each a
      number; length, indexing, splitting, searching and trimming work on
      code units, as ECMAScript defines them;
    - the case mappings of the platform, which are read off the Unicode
      Character Database and not off the program, are a parameter
      ([CaseMapping]) of which only what ECMAScript fixes for the ASCII
      letters is used;
    - a React state cell is a record field; a handler is a function from the
      state its closure captured to the state after its updates are applied;
    - Web Storage is a finite map from keys to stored texts; a stored text is
      represented by the JSON document it denotes when [JSON.parse] accepts
      it, and by the raw text otherwise. *)

From stdpp Require Import gmap strings list pretty.
From Stdlib Require Import ZArith NArith Ascii String.

(** ** Platform functions on strings *)
Module Js.

(** A string: its code units, in order. A code unit is a number below
    65536; the functions below are defined on every list of numbers. *)
Abbreviation str := (list N).

(** The string a literal of the source denotes; the literals of the sources
    modelled here have ASCII characters only, one code unit each. *)
Fixpoint lit (s : string) : str :=
  match s with
  | EmptyString => []
  | String c r => N_of_ascii c :: lit r
  end.

(** *** Case mappings

    [String.prototype.toLowerCase] and [toUpperCase] map the code points of
    a string by the locale-insensitive case mappings of the Unicode Character
    Database (UnicodeData.txt and SpecialCasing.txt): a character may map to
    several ("ß" to "SS"), and one mapping depends on what stands around the
    character (the final sigma). On the ASCII range the database maps the 26
    letters and nothing else, whatever stands around them. *)

Definition is_ascii (c : N) : bool := (c <? 128)%N.

Definition ascii_lower (c : N) : N :=
  if ((65 <=? c) && (c <=? 90))%N then (c + 32)%N else c.

Definition ascii_upper (c : N) : N :=
  if ((97 <=? c) && (c <=? 122))%N then (c - 32)%N else c.

(** The case mappings of the platform, with the facts about them this
    development uses: a string of ASCII characters is mapped character by
    character, and a run of ASCII characters inside any string is mapped in
    its place. *)
Class CaseMapping := {
  toLowerCase : str -> str;
  toUpperCase : str -> str;
  toLowerCase_ascii :
    forall s, forallb is_ascii s = true -> toLowerCase s = ascii_lower <$> s;
  toUpperCase_ascii :
    forall s, forallb is_ascii s = true -> toUpperCase s = ascii_upper <$> s;
  toLowerCase_ascii_part :
    forall a m b, forallb is_ascii m = true ->
      exists a' b', toLowerCase (a ++ m ++ b) = a' ++ (ascii_lower <$> m) ++ b';
}.

(** The mapping that changes the ASCII letters and nothing else. It is the
    mapping of every platform on the strings of ASCII characters; the sample
    data of this development, whose texts are ASCII, is evaluated with it. *)
Definition ascii_case_mapping : CaseMapping :=
  {| toLowerCase := fmap ascii_lower;
     toUpperCase := fmap ascii_upper;
     toLowerCase_ascii := fun s _ => eq_refl;
     toUpperCase_ascii := fun s _ => eq_refl;
     toLowerCase_ascii_part := fun a m b _ =>
       ex_intro _ (ascii_lower <$> a)
         (ex_intro _ (ascii_lower <$> b)
            (eq_trans (fmap_app ascii_lower a (m ++ b))
               (f_equal (app (ascii_lower <$> a)) (fmap_app ascii_lower m b)))) |}.

(** *** Searching and cutting *)

(** [s.startsWith(p)]. *)
Fixpoint startsWith (s p : str) : bool :=
  match p, s with
  | [], _ => true
  | _ :: _, [] => false
  | b :: p', a :: s' => if decide (a = b) then startsWith s' p' else false
  end.

(** [s.includes(x)]: [x] occurs in [s] at some position. *)
Fixpoint includes (s x : str) : bool :=
  if startsWith s x then true
  else match s with
       | [] => false
       | _ :: r => includes r x
       end.

(** [s.split(sep)] for a separator of one code unit. The result is never
    empty: the empty string splits into one empty token. *)
Fixpoint split (sep : N) (s : str) : list str :=
  match s with
  | [] => [[]]
  | c :: r =>
      if decide (c = sep) then [] :: split sep r
      else match split sep r with
           | w :: ws => (c :: w) :: ws
           | [] => [[c]]
           end
  end.

(** [ws.join(sep)]. *)
Fixpoint join (sep : str) (ws : list str) : str :=
  match ws with
  | [] => []
  | [w] => w
  | w :: ws' => w ++ sep ++ join sep ws'
  end.

(** [s.charAt(0)] and [s.slice(1)]. *)
Definition charAt0 (s : str) : str :=
  match s with [] => [] | c :: _ => [c] end.

Definition slice1 (s : str) : str :=
  match s with [] => [] | _ :: r => r end.

(** *** White space

    The code units [String.prototype.trim] strips: WhiteSpace (TAB, VT, FF,
    the zero width no-break space U+FEFF and the space separators of
    Unicode: U+0020, U+00A0, U+1680, U+2000 to U+200A, U+202F, U+205F,
    U+3000) and LineTerminator (LF, CR, U+2028, U+2029). *)
Definition is_white_space (c : N) : bool :=
  bool_decide (c ∈ [9; 10; 11; 12; 13; 32; 160; 5760; 8232; 8233; 8239; 8287;
                    12288; 65279]%N)
  || ((8192 <=? c) && (c <=? 8202))%N.

(** [s.trim()]: white space removed at both ends. *)
Fixpoint trimStart (s : str) : str :=
  match s with
  | [] => []
  | c :: r => if is_white_space c then trimStart r else s
  end.

Definition trimEnd (s : str) : str := rev (trimStart (rev s)).

Definition trim (s : str) : str := trimEnd (trimStart s).

(** Truthiness of a string: only the empty string is falsy. *)
Definition truthy (s : str) : bool :=
  match s with [] => false | _ => true end.

(** [x] occurs in [s]: the meaning of "contains", stated without the search. *)
Definition occurs (x s : str) : Prop :=
  exists a b, s = a ++ x ++ b.

(** [w] has no code unit [sep]. *)
Definition free_of (sep : N) (w : str) : bool :=
  forallb (fun c => negb (bool_decide (c = sep))) w.

(** The code unit of the space character, U+0020. *)
Definition space : N := 32.

End Js.

(** ** Title generation (chat-context.tsx, generateSessionTitle) *)
Module Title.
Import Js.

Definition stoplist : list str :=
  lit <$> ["trip"; "plan"; "travel"; "visit"; "going"; "want"; "like"; "help"]%string.

(** The filter predicate of [destinations]:
    [word.length > 3 && ![...].includes(word)]. *)
Definition is_destination (word : str) : bool :=
  (3 <? List.length word)%nat && negb (bool_decide (word ∈ stoplist)).

(** A token is discarded when it has at most three code units or is a word
    of the stoplist. *)
Definition discarded (w : str) : Prop :=
  (List.length w <= 3)%nat \/ w ∈ stoplist.

Section WithCaseMapping.
Context `{CaseMapping}.

(** [w.charAt(0).toUpperCase() + w.slice(1)]. *)
Definition capitalize (w : str) : str :=
  toUpperCase (charAt0 w) ++ slice1 w.

(** [today] is the value of [new Date().toLocaleDateString()], which depends
    on the clock and the locale of the browser. *)
Definition generateSessionTitle (today : str) (firstMessage : str) : str :=
  let words := split space (toLowerCase firstMessage) in
  let destinations := List.filter is_destination words in
  match destinations with
  | d :: _ => lit "Trip to " ++ capitalize d
  | [] => lit "Trip Plan - " ++ today
  end.

(** The title as the specification words it: the message is split on white
    space, tokens of length at most 3 and stoplist words are discarded, and
    the first remaining token is capitalized. *)
Fixpoint spec_tokens (s : str) : list str :=
  match s with
  | [] => [[]]
  | c :: r =>
      if is_white_space c then [] :: spec_tokens r
      else match spec_tokens r with
           | w :: ws => (c :: w) :: ws
           | [] => [[c]]
           end
  end.

Definition spec_discarded (token : str) : bool :=
  (List.length token <=? 3)%nat || bool_decide (token ∈ stoplist).

Definition spec_generateSessionTitle (today : str) (firstMessage : str) : str :=
  match List.filter (fun t => negb (spec_discarded t)) (spec_tokens firstMessage) with
  | t :: _ => lit "Trip to " ++ capitalize t
  | [] => lit "Trip Plan - " ++ today
  end.

End WithCaseMapping.

End Title.


(** ** Dates: time values and their ISO 8601 text *)
Module JsDate.
Import Js.

Local Open Scope Z_scope.

(** A [Date] object holds a time value: milliseconds since the epoch, within
    8.64e15 of it, or NaN (an invalid date). *)
Inductive Date :=
  | Instant (ms : Z)
  | InvalidDate.

Global Instance Date_eq_dec : EqDecision Date.
Proof. solve_decision. Defined.

Definition maxTime : Z := 8640000000000000.
Definition msPerDay : Z := 86400000.

Definition inRange (t : Z) : bool := (- maxTime <=? t) && (t <=? maxTime).

(** TimeClip. *)
Definition TimeClip (t : Z) : Date :=
  if inRange t then Instant t else InvalidDate.

Definition validDate (d : Date) : bool :=
  match d with
  | Instant t => inRange t
  | InvalidDate => false
  end.

(** *** The proleptic Gregorian calendar *)

Definition isLeap (y : Z) : bool :=
  ((y mod 4 =? 0) && negb (y mod 100 =? 0)) || (y mod 400 =? 0).

(** DayFromYear: the day number of January 1st of year [y]. *)
Definition DayFromYear (y : Z) : Z :=
  365 * (y - 1970) + (y - 1969) / 4 - (y - 1901) / 100 + (y - 1601) / 400.

(** Days of the year before the first of month [m] (1 to 12). *)
Definition daysBeforeMonth (leap : bool) (m : Z) : Z :=
  let l := if leap then 1 else 0 in
  match m with
  | 1 => 0 | 2 => 31 | 3 => 59 + l | 4 => 90 + l | 5 => 120 + l
  | 6 => 151 + l | 7 => 181 + l | 8 => 212 + l | 9 => 243 + l
  | 10 => 273 + l | 11 => 304 + l | _ => 334 + l
  end.

Definition daysInMonth (leap : bool) (m : Z) : Z :=
  match m with
  | 2 => if leap then 29 else 28
  | 4 | 6 | 9 | 11 => 30
  | _ => 31
  end.

(** MakeDay, for a month in 1..12 and a day of the month from 1. *)
Definition MakeDay (y m d : Z) : Z :=
  DayFromYear y + daysBeforeMonth (isLeap y) m + (d - 1).

(** Year, month and day of the month of a day within its 400-year cycle;
    the cycle starts on March 1st of a year divisible by 400. *)
Definition civil_of_cycle_day (doe : Z) : Z * Z * Z :=
  let yoe := (doe - doe / 1460 + doe / 36524 - doe / 146096) / 365 in
  let doy := doe - (365 * yoe + yoe / 4 - yoe / 100) in
  let mp := (5 * doy + 2) / 153 in
  let d := doy - (153 * mp + 2) / 5 + 1 in
  let m := if mp <? 10 then mp + 3 else mp - 9 in
  (if m <=? 2 then yoe + 1 else yoe, m, d).

(** YearFromTime, MonthFromTime and DateFromTime of a day number. *)
Definition civil_from_days (z : Z) : Z * Z * Z :=
  let z' := z + 719468 in
  let '(y, m, d) := civil_of_cycle_day (z' mod 146097) in
  (y + 400 * (z' / 146097), m, d).

(** The day of the 400-year cycle on which the year [y] of the cycle begins,
    on its March 1st. *)
Definition year_start (y : Z) : Z := 365 * y + y / 4 - y / 100 + y / 400.

Definition leap_day (y : Z) : Z := if isLeap y then 1 else 0.

(** *** Decimal fields of fixed width *)

Definition digit_char (d : Z) : N := (48 + Z.to_N d)%N.

Definition digit_val (c : N) : option Z :=
  if ((48 <=? c) && (c <=? 57))%N then Some (Z.of_N c - 48) else None.

(** The last [w] decimal digits of [n], most significant first. *)
Fixpoint digits (w : nat) (n : Z) : str :=
  match w with
  | O => []
  | S w' => digit_char (n / 10 ^ Z.of_nat w' mod 10) :: digits w' n
  end.

(** Reads [w] decimal digits at the front of [s]; [acc] holds the value of
    the digits read before. *)
Fixpoint read_digits (w : nat) (acc : Z) (s : str) : option (Z * str) :=
  match w with
  | O => Some (acc, s)
  | S w' =>
      match s with
      | c :: r =>
          match digit_val c with
          | Some d => read_digits w' (10 * acc + d) r
          | None => None
          end
      | [] => None
      end
  end.

(** The code units of the punctuation of the format. *)
Definition plus_sign : N := 43.
Definition hyphen : N := 45.
Definition full_stop : N := 46.
Definition colon : N := 58.
Definition letter_T : N := 84.
Definition letter_Z : N := 90.

Definition expect (c : N) (s : str) : option str :=
  match s with
  | c' :: r => if decide (c' = c) then Some r else None
  | [] => None
  end.

(** *** Date.prototype.toISOString *)

Definition year_text (y : Z) : str :=
  if (0 <=? y) && (y <=? 9999) then digits 4 y
  else if y <? 0 then hyphen :: digits 6 (- y)
  else plus_sign :: digits 6 y.

Definition toISOString (t : Z) : str :=
  let day := t / msPerDay in
  let tod := t mod msPerDay in
  let '(y, m, d) := civil_from_days day in
  year_text y ++ hyphen :: digits 2 m ++ hyphen :: digits 2 d ++ letter_T ::
  digits 2 (tod / 3600000) ++ colon :: digits 2 (tod / 60000 mod 60) ++ colon ::
  digits 2 (tod / 1000 mod 60) ++ full_stop :: digits 3 (tod mod 1000) ++ [letter_Z].

(** *** Date.parse

    The date-time format of ECMAScript in its complete form,
    [YYYY-MM-DDTHH:mm:ss.sssZ] with a year of four digits or a signed year of
    six. The shorter forms of the format, time zone offsets and the
    implementation-defined fallback formats are not modelled: they parse to
    NaN here. *)
Definition read_year (s : str) : option (Z * str) :=
  match s with
  | c :: r =>
      if decide (c = plus_sign) then read_digits 6 0 r
      else if decide (c = hyphen) then
        match read_digits 6 0 r with
        | Some (y, r') => if y =? 0 then None else Some (- y, r')
        | None => None
        end
      else read_digits 4 0 s
  | [] => read_digits 4 0 s
  end.

Definition Date_parse (s : str) : option Z :=
  '(y, s) ← read_year s;
  s ← expect hyphen s;
  '(m, s) ← read_digits 2 0 s;
  s ← expect hyphen s;
  '(d, s) ← read_digits 2 0 s;
  s ← expect letter_T s;
  '(h, s) ← read_digits 2 0 s;
  s ← expect colon s;
  '(mi, s) ← read_digits 2 0 s;
  s ← expect colon s;
  '(sec, s) ← read_digits 2 0 s;
  s ← expect full_stop s;
  '(ms, s) ← read_digits 3 0 s;
  s ← expect letter_Z s;
  if negb (bool_decide (s = [])) then None
  else if negb ((1 <=? m) && (m <=? 12)) then None
  else if negb ((1 <=? d) && (d <=? daysInMonth (isLeap y) m)) then None
  else if negb ((h <=? 23) || ((h =? 24) && (mi =? 0) && (sec =? 0) && (ms =? 0))) then None
  else if negb ((mi <=? 59) && (sec <=? 59)) then None
  else
    let t := MakeDay y m d * msPerDay + h * 3600000 + mi * 60000 + sec * 1000 + ms in
    if inRange t then Some t else None.

(** [Date.prototype.toJSON] is [toISOString] on a valid date and [null] on an
    invalid one; the text is what [JSON.stringify] writes for a date. *)
Definition toJSON_text (d : Date) : option str :=
  match d with
  | Instant t => Some (toISOString t)
  | InvalidDate => None
  end.

End JsDate.


(** ** JSON documents and Web Storage *)
Module Json.
Import Js JsDate.

#[local] Set Warnings "-register-all".

(** A JSON document. Numbers are kept to the integers: the managers write
    none, and read one only where a date is expected. *)
Inductive json :=
  | JNull
  | JBool (b : bool)
  | JNum (n : Z)
  | JStr (s : str)
  | JArr (items : list json)
  | JObj (fields : list (str * json)).

(** A text held in Web Storage: the document it denotes, or a text that
    [JSON.parse] rejects with a SyntaxError. *)
Inductive stored :=
  | Doc (j : json)
  | NotJson (text : str).

Definition JSON_parse (x : stored) : option json :=
  match x with
  | Doc j => Some j
  | NotJson _ => None
  end.

Definition JSON_stringify (j : json) : stored := Doc j.

(** [if (item)] on the result of [getItem]: a missing key gives [null] and
    the empty text is falsy. *)
Definition present (x : option stored) : bool :=
  match x with
  | None => false
  | Some (NotJson text) => truthy text
  | Some (Doc _) => true
  end.

(** Property access [o.k] on a parsed object; the last of several members
    with the same name is the one [JSON.parse] keeps. *)
Fixpoint jget (k : str) (fields : list (str * json)) : option json :=
  match fields with
  | [] => None
  | (k', v) :: rest =>
      match jget k rest with
      | Some x => Some x
      | None => if decide (k = k') then Some v else None
      end
  end.

(** [new Date(v)] on a value read from a parsed document ([None] is
    [undefined]). For an array or an object the conversion goes through its
    text, which is not modelled: the result is taken to be invalid. *)
Definition newDate (v : option json) : Date :=
  match v with
  | None => InvalidDate
  | Some JNull => Instant 0
  | Some (JBool b) => Instant (if b then 1 else 0)
  | Some (JNum n) => TimeClip n
  | Some (JStr s) =>
      match Date_parse s with
      | Some t => Instant t
      | None => InvalidDate
      end
  | Some (JArr _) | Some (JObj _) => InvalidDate
  end.

(** What [JSON.stringify] writes for a [Date]. *)
Definition dateJSON (d : Date) : json :=
  match toJSON_text d with
  | Some text => JStr text
  | None => JNull
  end.

End Json.

(** ** The chat/session state manager (contexts/chat-context.tsx) *)
Module Chat.
Import Js JsDate Json Title.

Inductive Role := user_role | assistant_role.

Global Instance Role_eq_dec : EqDecision Role.
Proof. solve_decision. Defined.

Record Message := {
  mid : str;
  content : str;
  role : Role;
  timestamp : Date;
  typing : option bool;
}.

Record ChatSession := {
  sid : str;
  title : str;
  messages : list Message;
  createdAt : Date;
  updatedAt : Date;
}.

Record User := {
  uid : str;
  email : str;
  name : str;
  isGuest : option bool;
}.

Global Instance Message_eq_dec : EqDecision Message.
Proof. solve_decision. Defined.

Global Instance ChatSession_eq_dec : EqDecision ChatSession.
Proof. solve_decision. Defined.

Record Toast := {
  toast_title : str;
  toast_description : str;
  destructive : bool;
}.

(** The body of the POST to /api/chat. *)
Record ChatRequest := {
  req_message : str;
  req_session_id : str;
  req_history : list (Role * str);
}.

(** How the fetch of sendMessage ends: the promise rejects, the response is
    not ok, its body is not JSON, or it carries a reply. *)
Inductive FetchResult :=
  | Rejected
  | NotOk
  | BadBody
  | Reply (response : str).

Definition failed (r : FetchResult) : bool :=
  match r with
  | Reply _ => false
  | _ => true
  end.

(** The state cells of the provider, the [user] it reads from the auth
    context, localStorage, and the effects it has had on the outside: toasts
    shown and chat requests issued, oldest first. *)
Record State := {
  sessions : list ChatSession;
  currentSession : option ChatSession;
  loading : bool;
  isTyping : bool;
  user : option User;
  localStorage : gmap str stored;
  toasts : list Toast;
  requests : list ChatRequest;
}.

(** The clock and locale a handler reads in one run between two awaits:
    [now k] is the value of its reading number [k] of the clock ([Date.now()]
    or [new Date()], in the order of evaluation), and [today] is what
    [new Date().toLocaleDateString()] gives. *)
Record Env := {
  now : nat -> Z;
  today : str;
}.

Definition setSessions (ss : list ChatSession) (st : State) : State :=
  {| sessions := ss; currentSession := currentSession st; loading := loading st;
     isTyping := isTyping st; user := user st; localStorage := localStorage st;
     toasts := toasts st; requests := requests st |}.

Definition setCurrentSession (c : option ChatSession) (st : State) : State :=
  {| sessions := sessions st; currentSession := c; loading := loading st;
     isTyping := isTyping st; user := user st; localStorage := localStorage st;
     toasts := toasts st; requests := requests st |}.

Definition setLoading (b : bool) (st : State) : State :=
  {| sessions := sessions st; currentSession := currentSession st; loading := b;
     isTyping := isTyping st; user := user st; localStorage := localStorage st;
     toasts := toasts st; requests := requests st |}.

Definition setIsTyping (b : bool) (st : State) : State :=
  {| sessions := sessions st; currentSession := currentSession st; loading := loading st;
     isTyping := b; user := user st; localStorage := localStorage st;
     toasts := toasts st; requests := requests st |}.

Definition setStorage (m : gmap str stored) (st : State) : State :=
  {| sessions := sessions st; currentSession := currentSession st; loading := loading st;
     isTyping := isTyping st; user := user st; localStorage := m;
     toasts := toasts st; requests := requests st |}.

Definition toast (t : Toast) (st : State) : State :=
  {| sessions := sessions st; currentSession := currentSession st; loading := loading st;
     isTyping := isTyping st; user := user st; localStorage := localStorage st;
     toasts := toasts st ++ [t]; requests := requests st |}.

Definition fetch (r : ChatRequest) (st : State) : State :=
  {| sessions := sessions st; currentSession := currentSession st; loading := loading st;
     isTyping := isTyping st; user := user st; localStorage := localStorage st;
     toasts := toasts st; requests := requests st ++ [r] |}.

(** The provider as it is mounted for [u] over a given localStorage. *)
Definition initial (u : option User) (storage : gmap str stored) : State :=
  {| sessions := []; currentSession := None; loading := false; isTyping := false;
     user := u; localStorage := storage; toasts := []; requests := [] |}.

(** *** Persistence *)

Definition role_text (r : Role) : str :=
  match r with
  | user_role => lit "user"
  | assistant_role => lit "assistant"
  end.

(** The documents [JSON.stringify] writes for a message and a session: the
    own properties in creation order, [isTyping] only when it is defined. *)
Definition messageJSON (m : Message) : json :=
  JObj ([(lit "id", JStr (mid m)); (lit "content", JStr (content m));
         (lit "role", JStr (role_text (role m)));
         (lit "timestamp", dateJSON (timestamp m))]
        ++ match typing m with
           | Some b => [(lit "isTyping", JBool b)]
           | None => []
           end).

Definition sessionJSON (s : ChatSession) : json :=
  JObj [(lit "id", JStr (sid s)); (lit "title", JStr (title s));
        (lit "messages", JArr (messageJSON <$> messages s));
        (lit "createdAt", dateJSON (createdAt s));
        (lit "updatedAt", dateJSON (updatedAt s))].

Definition sessionsJSON (ss : list ChatSession) : json :=
  JArr (sessionJSON <$> ss).

(** A session whose dates are time values: none is an invalid date. *)
Definition valid_message (m : Message) : bool := validDate (timestamp m).

Definition valid_session (s : ChatSession) : bool :=
  validDate (createdAt s) && validDate (updatedAt s)
  && forallb valid_message (messages s).

(** What a date, a message and a session are once written by
    [JSON.stringify] and read again by the load: [new Date] of what was
    written for each date, every other property as it was. *)
Definition reread_date (d : Date) : Date := newDate (Some (dateJSON d)).

Definition reread_message (m : Message) : Message :=
  {| mid := mid m; content := content m; role := role m;
     timestamp := reread_date (timestamp m); typing := typing m |}.

Definition reread_session (s : ChatSession) : ChatSession :=
  {| sid := sid s; title := title s; messages := reread_message <$> messages s;
     createdAt := reread_date (createdAt s); updatedAt := reread_date (updatedAt s) |}.

(** The storage key; [user?.id] of no user is [undefined]. *)
Definition sessions_key (u : option User) : str :=
  lit "trip_planner_sessions_" ++
  match u with
  | Some u => uid u
  | None => lit "undefined"
  end.

(** [saveSessions], with the [user] of the render that created it. *)
Definition saveSessions (u : option User) (updatedSessions : list ChatSession)
    (storage : gmap str stored) : gmap str stored :=
  match u with
  | Some _ => <[sessions_key u := JSON_stringify (sessionsJSON updatedSessions)]> storage
  | None => storage
  end.

(** Reading a parsed document back at the types the state is declared with.
    [None] stands for a document that is not an array of session objects:
    on some of these the source throws a TypeError, on the others it would
    keep values outside [ChatSession[]], which the state here cannot hold. *)
Definition as_string (v : option json) : option str :=
  match v with
  | Some (JStr s) => Some s
  | _ => None
  end.

Definition as_role (v : option json) : option Role :=
  match v with
  | Some (JStr s) =>
      if decide (s = lit "user") then Some user_role
      else if decide (s = lit "assistant") then Some assistant_role
      else None
  | _ => None
  end.

Definition as_optional_bool (v : option json) : option (option bool) :=
  match v with
  | None => Some None
  | Some (JBool b) => Some (Some b)
  | _ => None
  end.

Definition reviveMessage (j : json) : option Message :=
  match j with
  | JObj fields =>
      i ← as_string (jget (lit "id") fields);
      c ← as_string (jget (lit "content") fields);
      r ← as_role (jget (lit "role") fields);
      t ← as_optional_bool (jget (lit "isTyping") fields);
      Some {| mid := i; content := c; role := r;
              timestamp := newDate (jget (lit "timestamp") fields); typing := t |}
  | _ => None
  end.

Definition reviveSession (j : json) : option ChatSession :=
  match j with
  | JObj fields =>
      i ← as_string (jget (lit "id") fields);
      t ← as_string (jget (lit "title") fields);
      ms ← match jget (lit "messages") fields with
           | Some (JArr items) => mapM reviveMessage items
           | _ => None
           end;
      Some {| sid := i; title := t; messages := ms;
              createdAt := newDate (jget (lit "createdAt") fields);
              updatedAt := newDate (jget (lit "updatedAt") fields) |}
  | _ => None
  end.

Definition reviveSessions (j : json) : option (list ChatSession) :=
  match j with
  | JArr items => mapM reviveSession items
  | _ => None
  end.

Definition parseSessions (savedSessions : option stored) : option (list ChatSession) :=
  j ← savedSessions ≫= JSON_parse;
  reviveSessions j.

(** [loadSessions]: any exception is caught and leaves the state as it was. *)
Definition loadSessions (st : State) : State :=
  let savedSessions := localStorage st !! sessions_key (user st) in
  if present savedSessions then
    match parseSessions savedSessions with
    | Some parsedSessions =>
        let st' := setSessions parsedSessions st in
        match parsedSessions, currentSession st with
        | first :: _, None => setCurrentSession (Some first) st'
        | _, _ => st'
        end
    | None => st
    end
  else st.

(** The effect on [user]: the load runs when a user is there. *)
Definition onUser (st : State) : State :=
  match user st with
  | Some _ => loadSessions st
  | None => st
  end.

(** *** The handlers *)

Definition createNewSession (env : Env) (st : State) : State :=
  let newSession :=
    {| sid := lit "session_" ++ lit (pretty (now env 0));
       title := lit "New Trip Plan";
       messages := [];
       createdAt := Instant (now env 1);
       updatedAt := Instant (now env 2) |} in
  let updatedSessions := newSession :: sessions st in
  setStorage (saveSessions (user st) updatedSessions (localStorage st))
    (setCurrentSession (Some newSession) (setSessions updatedSessions st)).

Definition selectSession (sessionId : str) (st : State) : State :=
  match List.find (fun s => bool_decide (sid s = sessionId)) (sessions st) with
  | Some session => setCurrentSession (Some session) st
  | None => st
  end.

(** What the closure of one call of [sendMessage] holds across its await:
    the [currentSession], [sessions] and [user] of the render it was created
    in, and the session with the user message appended. *)
Record Pending := {
  p_current : ChatSession;
  p_sessions : list ChatSession;
  p_user : option User;
  p_updated : ChatSession;
}.

Definition history (s : ChatSession) : list (Role * str) :=
  (fun msg => (role msg, content msg)) <$> messages s.

Definition replace_session (target : str) (new : ChatSession)
    (ss : list ChatSession) : list ChatSession :=
  (fun s => if decide (sid s = target) then new else s) <$> ss.

(** [sendMessage] from the moment the fetch settles: the try block after the
    await, the catch block, and the finally block. [st] is the state at that
    moment. *)
Definition sendMessage_settle (env : Env) (p : Pending) (r : FetchResult)
    (st : State) : State :=
  let st' :=
    match r with
    | Reply response =>
        let assistantMessage :=
          {| mid := lit "msg_" ++ lit (pretty (now env 0 + 1)%Z);
             content := response;
             role := assistant_role;
             timestamp := Instant (now env 1);
             typing := None |} in
        let finalSession :=
          {| sid := sid (p_updated p);
             title := title (p_updated p);
             messages := messages (p_updated p) ++ [assistantMessage];
             createdAt := createdAt (p_updated p);
             updatedAt := Instant (now env 2) |} in
        let updatedSessions :=
          replace_session (sid (p_current p)) finalSession (p_sessions p) in
        setStorage (saveSessions (p_user p) updatedSessions (localStorage st))
          (setSessions updatedSessions
             (setCurrentSession (Some finalSession) st))
    | _ =>
        setCurrentSession (Some (p_current p))
          (toast {| toast_title := lit "Error";
                    toast_description := lit "Failed to send message. Please try again.";
                    destructive := true |} st)
    end in
  setLoading false (setIsTyping false st').

Definition deleteSession (sessionId : str) (st : State) : State :=
  let updatedSessions := filter (fun s => sid s ≠ sessionId) (sessions st) in
  let st1 :=
    setStorage (saveSessions (user st) updatedSessions (localStorage st))
      (setSessions updatedSessions st) in
  let st2 :=
    match currentSession st with
    | Some current =>
        if decide (sid current = sessionId)
        then setCurrentSession (head updatedSessions) st1
        else st1
    | None => st1
    end in
  toast {| toast_title := lit "Session deleted";
           toast_description := lit "Trip planning session has been removed.";
           destructive := false |} st2.

Definition clearCurrentChat (env : Env) (st : State) : State :=
  match currentSession st with
  | Some current =>
      let clearedSession :=
        {| sid := sid current;
           title := lit "New Trip Plan";
           messages := [];
           createdAt := createdAt current;
           updatedAt := Instant (now env 0) |} in
      let updatedSessions := replace_session (sid current) clearedSession (sessions st) in
      setStorage (saveSessions (user st) updatedSessions (localStorage st))
        (setSessions updatedSessions
           (setCurrentSession (Some clearedSession) st))
  | None => st
  end.

(** [!query.trim()]. *)
Definition blank (query : str) : bool := negb (truthy (trim query)).

(** The operations a consumer of the context can invoke. A [SendMessage]
    carries the clock readings before and after its await and the way its
    fetch ends. *)
Inductive Op :=
  | CreateNewSession (env : Env)
  | SelectSession (sessionId : str)
  | SendMessage (env env' : Env) (text : str) (r : FetchResult)
  | DeleteSession (sessionId : str)
  | ClearCurrentChat (env : Env).


Definition withUser (u : option User) (st : State) : State :=
  {| sessions := sessions st; currentSession := currentSession st; loading := loading st;
     isTyping := isTyping st; user := u; localStorage := localStorage st;
     toasts := toasts st; requests := requests st |}.

(** The dates of a state are time values, and so are the clock readings of
    an operation. *)
Definition valid_state (st : State) : Prop :=
  Forall (fun s => valid_session s = true) (sessions st)
  /\ forall current, currentSession st = Some current -> valid_session current = true.

Definition valid_env (env : Env) : bool :=
  inRange (now env 0) && inRange (now env 1) && inRange (now env 2).

Definition valid_op (op : Op) : bool :=
  match op with
  | CreateNewSession env => valid_env env
  | SendMessage env env' _ _ => valid_env env && valid_env env'
  | ClearCurrentChat env => valid_env env
  | SelectSession _ | DeleteSession _ => true
  end.

(** The provider after its startup for [u] over [storage]. *)
Definition startup (u : option User) (storage : gmap str stored) : State :=
  onUser (initial u storage).

Section WithCaseMapping.
Context `{CaseMapping}.

(** [sendMessage] up to its await. Without a current session it creates one
    and returns; nothing is left pending. *)
Definition sendMessage_begin (env : Env) (text : str) (st : State)
    : State * option Pending :=
  match currentSession st with
  | None => (createNewSession env st, None)
  | Some current =>
      let userMessage :=
        {| mid := lit "msg_" ++ lit (pretty (now env 0));
           content := text;
           role := user_role;
           timestamp := Instant (now env 1);
           typing := None |} in
      let updatedSession :=
        {| sid := sid current;
           title := match messages current with
                    | [] => generateSessionTitle (today env) text
                    | _ :: _ => title current
                    end;
           messages := messages current ++ [userMessage];
           createdAt := createdAt current;
           updatedAt := Instant (now env 2) |} in
      (fetch {| req_message := text;
                req_session_id := sid current;
                req_history := history current |}
         (setLoading true (setIsTyping true
            (setCurrentSession (Some updatedSession) st))),
       Some {| p_current := current; p_sessions := sessions st;
               p_user := user st; p_updated := updatedSession |})
  end.

(** A whole call of [sendMessage] with nothing else happening during the
    await: [env] is read before it, [env'] after it. *)
Definition sendMessage (env env' : Env) (text : str) (r : FetchResult)
    (st : State) : State :=
  match sendMessage_begin env text st with
  | (st', Some p) => sendMessage_settle env' p r st'
  | (st', None) => st'
  end.

Definition matches (query : str) (session : ChatSession) : bool :=
  includes (toLowerCase (title session)) (toLowerCase query)
  || existsb (fun msg => includes (toLowerCase (content msg)) (toLowerCase query))
       (messages session).

Definition searchSessions (query : str) (st : State) : list ChatSession :=
  if blank query then sessions st
  else List.filter (matches query) (sessions st).

(** A session matches a query when the query occurs, both in lower case, in
    its title or in the text of one of its messages. *)
Definition hit (q : str) (s : ChatSession) : Prop :=
  occurs (toLowerCase q) (toLowerCase (title s))
  \/ exists m, m ∈ messages s /\ occurs (toLowerCase q) (toLowerCase (content m)).

(** *** Runs of the manager *)

Definition run (op : Op) (st : State) : State :=
  match op with
  | CreateNewSession env => createNewSession env st
  | SelectSession sessionId => selectSession sessionId st
  | SendMessage env env' text r => sendMessage env env' text r st
  | DeleteSession sessionId => deleteSession sessionId st
  | ClearCurrentChat env => clearCurrentChat env st
  end.

Definition runs (ops : list Op) (st : State) : State :=
  fold_left (fun st op => run op st) ops st.

End WithCaseMapping.

(** *** Sample data *)

Definition alice : User :=
  {| uid := lit "u1"; email := lit "alice@example.com"; name := lit "Alice";
     isGuest := None |}.

Definition kyoto : ChatSession :=
  {| sid := lit "session_1700000000000"; title := lit "Trip to Kyoto";
     messages :=
       [ {| mid := lit "msg_1700000001000";
            content := lit "I want to visit Kyoto this spring";
            role := user_role; timestamp := Instant 1700000001000; typing := None |};
         {| mid := lit "msg_1700000002001"; content := lit "Here is your itinerary";
            role := assistant_role; timestamp := Instant 1700000002000; typing := None |} ];
     createdAt := Instant 1700000000000; updatedAt := Instant 1700000002000 |}.

Definition fresh : ChatSession :=
  {| sid := lit "session_1700000500000"; title := lit "New Trip Plan"; messages := [];
     createdAt := Instant 1700000500000; updatedAt := Instant 1700000500000 |}.

Definition sample (u : option User) : State :=
  {| sessions := [fresh; kyoto]; currentSession := Some fresh;
     loading := false; isTyping := false; user := u;
     localStorage := ∅; toasts := []; requests := [] |}.

Definition noon : Env :=
  {| now := fun k => (1700000600000 + Z.of_nat k)%Z; today := lit "11/14/2023" |}.
Definition later : Env :=
  {| now := fun k => (1700000603000 + Z.of_nat k)%Z; today := lit "11/14/2023" |}.

End Chat.

(** ** Trip-plan detection (the message bubble component) *)
Module MessageBubble.
Import Js Chat.

Definition isUser (message : Message) : bool :=
  bool_decide (role message = user_role).

Section WithCaseMapping.
Context `{CaseMapping}.

Definition containsTripPlan (message : Message) : bool :=
  negb (isUser message)
  && (includes (toLowerCase (content message)) (lit "itinerary")
      || includes (toLowerCase (content message)) (lit "day 1")
      || includes (toLowerCase (content message)) (lit "schedule")
      || includes (toLowerCase (content message)) (lit "trip plan")
      || (includes (content message) (lit "## Day")
          && includes (content message) (lit "**Start Date:**"))).

End WithCaseMapping.

End MessageBubble.

(** ** The auth state manager: the check for an existing session at startup *)
Module Auth.
Import Js Json.

(** What the [user] cell holds: a value, as [JSON.parse] or the server
    returned it (it has type [any] and is not validated; [Value JNull] is
    [null], the logged-out state), or [undefined]. *)
Inductive Cell :=
  | Undefined
  | Value (j : json).

Record State := {
  user : Cell;
  loading : bool;
  sessionStorage : gmap str stored;
  localStorage : gmap str stored;
}.

Definition guest_key : str := lit "trip_planner_guest_user".
Definition user_key : str := lit "trip_planner_user".

(** The provider as it is mounted: no user, loading. *)
Definition initial (session_store local_store : gmap str stored) : State :=
  {| user := Value JNull; loading := true;
     sessionStorage := session_store; localStorage := local_store |}.

Definition settle (u : json) (st : State) : State :=
  {| user := Value u; loading := false;
     sessionStorage := sessionStorage st; localStorage := localStorage st |}.

(** The catch block: both entries are removed. *)
Definition clearCorrupted (st : State) : State :=
  {| user := Value JNull; loading := false;
     sessionStorage := delete guest_key (sessionStorage st);
     localStorage := delete user_key (localStorage st) |}.

Definition checkExistingSession (st : State) : State :=
  let guestUser := sessionStorage st !! guest_key in
  if present guestUser then
    match guestUser ≫= JSON_parse with
    | Some parsedGuestUser => settle parsedGuestUser st
    | None => clearCorrupted st
    end
  else
    let regularUser := localStorage st !! user_key in
    if present regularUser then
      match regularUser ≫= JSON_parse with
      | Some parsedRegularUser => settle parsedRegularUser st
      | None => clearCorrupted st
      end
    else settle JNull st.

(** What a storage entry amounts to at startup: nothing (no entry, or the
    empty text, which [if (item)] skips), a document, or a text that
    [JSON.parse] rejects. *)
Inductive Entry :=
  | Absent
  | Holds (j : json)
  | Corrupted.

Definition entry (x : option stored) : Entry :=
  match x with
  | None => Absent
  | Some (Doc j) => Holds j
  | Some (NotJson text) => if truthy text then Corrupted else Absent
  end.

(** Sample data: a registered user record and a broken guest entry. *)
Definition bob : json :=
  JObj [(lit "id", JStr (lit "u2")); (lit "email", JStr (lit "bob@example.com"));
        (lit "name", JStr (lit "Bob"))].

Definition broken_guest : State :=
  initial {[ guest_key := NotJson (lit "{oops") ]} {[ user_key := Doc bob ]}.

End Auth.

(** ** Reloading the page, and the ids of the collection *)
Module ChatRuns.
Import Js JsDate Json Chat.

(** A reload of the page: the provider starts again for the same user over
    the localStorage the state has reached. *)
Definition reload (st : State) : State := startup (user st) (localStorage st).

(** The ids of the collection, in its order. *)
Definition session_ids (st : State) : list str := sid <$> sessions st.




Section WithCaseMapping.
Context `{CaseMapping}.

(** A call of [sendMessage] during whose await the operations [during] run,
    one after the other, before the fetch settles. *)
Definition sendMessage_during (env env' : Env) (text : str) (r : FetchResult)
    (during : list Op) (st : State) : State :=
  match sendMessage_begin env text st with
  | (st1, Some p) => sendMessage_settle env' p r (runs during st1)
  | (st1, None) => runs during st1
  end.

End WithCaseMapping.

End ChatRuns.

(** ** The components that drive the chat manager *)
Module Components.
Import Js JsDate Json Chat.

(** The header (components/chat/chat-header.tsx): [handleClearChat]. *)
Definition handleClearChat (env : Env) (st : State) : State :=
  match currentSession st with
  | Some current =>
      match messages current with
      | _ :: _ => clearCurrentChat env st
      | [] => st
      end
  | None => st
  end.

(** The chat area shows the welcome screen in place of the thread. *)
Definition showsWelcome (st : State) : bool :=
  match currentSession st with
  | Some current => bool_decide (messages current = [])
  | None => true
  end.

(** The first and the last code unit of a string are no white space. *)
Definition starts_solid (s : str) : Prop :=
  match s with
  | c :: _ => is_white_space c = false
  | [] => False
  end.

Definition ends_solid (s : str) : Prop := starts_solid (rev s).

Section WithCaseMapping.
Context `{CaseMapping}.

(** The message input (components/chat/message-input.tsx): [handleSubmit]
    on the text of the box. The result is the text of the box and the state
    of the manager once the awaited send has settled. The send catches every
    failure of its fetch itself; with the writes to localStorage succeeding,
    as they do throughout this development, its promise never rejects, so
    the catch block of [handleSubmit], which would put the text back, has no
    run. *)
Definition handleSubmit (env env' : Env) (r : FetchResult)
    (message : str) (st : State) : str * State :=
  if blank message || loading st then (message, st)
  else
    let messageToSend := trim message in
    ([], sendMessage env env' messageToSend r st).

(** The box and the manager while the send of [handleSubmit] is awaited. *)
Definition handleSubmit_pending (env : Env) (message : str) (st : State)
    : str * State :=
  if blank message || loading st then (message, st)
  else ([], (sendMessage_begin env (trim message) st).1).

(** The sidebar (components/chat/trip-history-sidebar.tsx). *)
Definition filteredSessions (searchQuery : str) (st : State) : list ChatSession :=
  if truthy searchQuery then searchSessions searchQuery st else sessions st.

Definition recentSessions (searchQuery : str) (st : State) : list ChatSession :=
  take 3 (filteredSessions searchQuery st).

Definition olderSessions (searchQuery : str) (st : State) : list ChatSession :=
  drop 3 (filteredSessions searchQuery st).

End WithCaseMapping.

End Components.

(** ** The auth state manager: login, signup, guest entry and logout *)
Module AuthActions.
Import Js JsDate Json Auth.

Definition token_key : str := lit "trip_planner_token".
Definition sessions_prefix : str := lit "trip_planner_sessions_".

(** How the fetch of [login] or [signup] ends. [Unreachable]: the promise
    rejects with an error of that message. [Refused]: the response is not ok
    and its body is a JSON object, with or without a [message]. [Unreadable]:
    reading the body fails with an error of that message (it is not JSON, or
    it is [null], which has no properties). [Granted]: the response is ok
    and its body is read; [user] is the body's member of that name, which is
    not validated, and [None] when the body has no such member ([undefined]);
    [token] is the text Web Storage holds for the body's [token]. *)
Inductive AuthResponse :=
  | Unreachable (message : str)
  | Refused (message : option str)
  | Unreadable (message : str)
  | Granted (user : option json) (token : stored).

(** What a handler of the auth manager leaves: the state, the toasts it
    showed, the message of the error it throws to its caller, and the page it
    sends the browser to. *)
Record Outcome := {
  after : State;
  shown : list Chat.Toast;
  thrown : option str;
  navigated : option str;
}.

(** [errorData.message || fallback]. *)
Definition message_or (message : option str) (fallback : str) : str :=
  match message with
  | Some m => if truthy m then m else fallback
  | None => fallback
  end.

Definition setLoading (b : bool) (st : State) : State :=
  {| user := user st; loading := b;
     sessionStorage := sessionStorage st; localStorage := localStorage st |}.

(** [setUser(userData.user)]. *)
Definition cell_of (u : option json) : Cell :=
  match u with
  | Some j => Value j
  | None => Undefined
  end.

(** What [setItem(key, JSON.stringify(userData.user))] stores: the document
    of a value, and the text [undefined] when there is none
    ([JSON.stringify(undefined)] is [undefined], which [setItem] turns into
    a string). That text is no JSON. *)
Definition stringify_cell (u : option json) : stored :=
  match u with
  | Some j => JSON_stringify j
  | None => NotJson (lit "undefined")
  end.

(** The catch and finally blocks: a toast with the message of the error,
    which is thrown on to the caller; nothing is stored. *)
Definition rejected (failed_title m : str) (st : State) : Outcome :=
  {| after := setLoading false st;
     shown := [ {| Chat.toast_title := failed_title;
                   Chat.toast_description := m;
                   Chat.destructive := true |} ];
     thrown := Some m;
     navigated := None |}.

(** The body [login] and [signup] share, with the texts in which they
    differ; the state while the fetch is awaited is [setLoading true st]. *)
Definition submit (fallback failed_title ok_title ok_description : str)
    (r : AuthResponse) (st : State) : Outcome :=
  match r with
  | Granted u token =>
      {| after :=
           {| user := cell_of u; loading := false;
              sessionStorage := delete guest_key (sessionStorage st);
              localStorage :=
                <[token_key := token]>
                  (<[user_key := stringify_cell u]> (localStorage st)) |};
         shown := [ {| Chat.toast_title := ok_title;
                       Chat.toast_description := ok_description;
                       Chat.destructive := false |} ];
         thrown := None;
         navigated := None |}
  | Unreachable m | Unreadable m => rejected failed_title m st
  | Refused message => rejected failed_title (message_or message fallback) st
  end.

Definition login (r : AuthResponse) (st : State) : Outcome :=
  submit (lit "Invalid credentials") (lit "Login failed")
    (lit "Welcome back!") (lit "Successfully logged in to your account.") r st.

Definition signup (r : AuthResponse) (st : State) : Outcome :=
  submit (lit "Signup failed") (lit "Signup failed")
    (lit "Account created!") (lit "Welcome to AI Trip Planner.") r st.

(** [login] or [signup]. *)
Definition enter (signing_up : bool) : AuthResponse -> State -> Outcome :=
  if signing_up then signup else login.

Definition fallback_of (signing_up : bool) : str :=
  if signing_up then lit "Signup failed" else lit "Invalid credentials".

(** The message of the error a response that is not granted ends the try
    block with. *)
Definition failure_message (fallback : str) (r : AuthResponse) : option str :=
  match r with
  | Unreachable m | Unreadable m => Some m
  | Refused message => Some (message_or message fallback)
  | Granted _ _ => None
  end.

(** The identity [loginAsGuest] makes at clock reading [now]. *)
Definition guestUser (now : Z) : json :=
  JObj [(lit "id", JStr (lit "guest_" ++ lit (pretty now)));
        (lit "email", JStr (lit "guest@example.com"));
        (lit "name", JStr (lit "Guest User")); (lit "isGuest", JBool true)].

Definition loginAsGuest (now : Z) (st : State) : Outcome :=
  {| after :=
       {| user := Value (guestUser now); loading := loading st;
          sessionStorage := <[guest_key := JSON_stringify (guestUser now)]> (sessionStorage st);
          localStorage := delete token_key (delete user_key (localStorage st)) |};
     shown := [ {| Chat.toast_title := lit "Welcome!";
                   Chat.toast_description :=
                     lit "You are now using AI Trip Planner as a guest.";
                   Chat.destructive := false |} ];
     thrown := None;
     navigated := None |}.

(** The sweep of [logout]: every key of localStorage that starts with the
    prefix of the session collections is removed. *)
Definition sweep (m : gmap str stored) : gmap str stored :=
  filter (fun kv => startsWith kv.1 sessions_prefix = false) m.

Definition logout (st : State) : Outcome :=
  {| after :=
       {| user := Value JNull; loading := loading st;
          sessionStorage := delete guest_key (sessionStorage st);
          localStorage := sweep (delete token_key (delete user_key (localStorage st))) |};
     shown := [ {| Chat.toast_title := lit "Logged out";
                   Chat.toast_description := lit "You have been successfully logged out.";
                   Chat.destructive := false |} ];
     thrown := None;
     navigated := Some (lit "/auth") |}.

(** The page is loaded again over the storage the state has reached: the
    provider is mounted and checks for an existing session. *)
Definition reload (st : State) : State :=
  checkExistingSession (initial (sessionStorage st) (localStorage st)).

End AuthActions.

(** * Properties *)

(** ** Facts about the string functions *)
Module JsFacts.
Import Js.

Lemma startsWith_nil s : startsWith s [] = true.
Proof. destruct s; reflexivity. Qed.

Lemma startsWith_app p r : startsWith (p ++ r) p = true.
Proof.
  induction p as [|c p IH]; [apply startsWith_nil|].
  cbn. destruct (decide (c = c)); [exact IH|congruence].
Qed.

Lemma startsWith_inv s p : startsWith s p = true -> exists r, s = p ++ r.
Proof.
  revert s. induction p as [|c p IH]; intros s Hs.
  - exists s. reflexivity.
  - destruct s as [|a s]; cbn in Hs; [discriminate|].
    destruct (decide (a = c)) as [->|]; [|discriminate].
    destruct (IH _ Hs) as [r ->]. exists r. reflexivity.
Qed.

Lemma includes_eq s x :
  includes s x =
  if startsWith s x then true
  else match s with [] => false | _ :: r => includes r x end.
Proof. destruct s; reflexivity. Qed.

Lemma includes_intro a x b : includes (a ++ x ++ b) x = true.
Proof.
  induction a as [|c a IH].
  - rewrite app_nil_l, includes_eq, startsWith_app. reflexivity.
  - rewrite <- app_comm_cons, includes_eq. destruct (startsWith _ _); [reflexivity|exact IH].
Qed.

Lemma includes_inv s x : includes s x = true -> occurs x s.
Proof.
  induction s as [|c s IH]; rewrite includes_eq; intros Hs.
  - destruct (startsWith [] x) eqn:E; [|discriminate].
    destruct (startsWith_inv _ _ E) as [r Hr]. exists [], r. exact Hr.
  - destruct (startsWith (c :: s) x) eqn:E.
    + destruct (startsWith_inv _ _ E) as [r Hr]. exists [], r. exact Hr.
    + destruct (IH Hs) as (a & b & ->). exists (c :: a), b. reflexivity.
Qed.

(** [includes] decides [occurs]. *)
Lemma includes_spec s x : includes s x = true <-> occurs x s.
Proof.
  split; [apply includes_inv|].
  intros (a & b & ->). apply includes_intro.
Qed.

Lemma includes_false s x : includes s x = false <-> ~ occurs x s.
Proof.
  rewrite <- includes_spec. destruct (includes s x); split; congruence.
Qed.

Lemma occurs_app_l a b t : occurs (a ++ b) t -> occurs a t.
Proof.
  intros (x & y & ->). exists x, (b ++ y). rewrite <- app_assoc. reflexivity.
Qed.

Lemma occurs_app_r a b t : occurs (a ++ b) t -> occurs b t.
Proof.
  intros (x & y & ->). exists (x ++ a), y. rewrite <- !app_assoc. reflexivity.
Qed.

Lemma occurs_within a x b t : occurs (a ++ x ++ b) t -> occurs x t.
Proof. intros Ho. apply occurs_app_r in Ho. apply occurs_app_l in Ho. exact Ho. Qed.

Lemma split_nonempty sep s : split sep s <> [].
Proof.
  destruct s as [|c r]; cbn; [discriminate|].
  destruct (decide (c = sep)); [discriminate|].
  destruct (split sep r); discriminate.
Qed.

(** Joining the tokens with the separator gives the string back. *)
Lemma join_split sep s : join [sep] (split sep s) = s.
Proof.
  induction s as [|c r IH]; [reflexivity|].
  cbn [split]. destruct (decide (c = sep)) as [->|Hne].
  - destruct (split sep r) as [|w ws] eqn:E; [exfalso; eapply split_nonempty; eauto|].
    change (join [sep] ([] :: w :: ws)) with ([] ++ [sep] ++ join [sep] (w :: ws)).
    rewrite IH. reflexivity.
  - destruct (split sep r) as [|w ws] eqn:E; [exfalso; eapply split_nonempty; eauto|].
    destruct ws as [|w' ws].
    + cbn in *. congruence.
    + change (join [sep] ((c :: w) :: w' :: ws))
        with ((c :: w) ++ [sep] ++ join [sep] (w' :: ws)).
      change (join [sep] (w :: w' :: ws))
        with (w ++ [sep] ++ join [sep] (w' :: ws)) in IH.
      rewrite <- app_comm_cons, IH. reflexivity.
Qed.

(** No token contains the separator. *)
Lemma split_free sep s : Forall (fun w => free_of sep w = true) (split sep s).
Proof.
  induction s as [|c r IH]; cbn [split].
  - constructor; [reflexivity|constructor].
  - destruct (decide (c = sep)) as [->|Hne].
    + constructor; [reflexivity|exact IH].
    + destruct (split sep r) as [|w ws].
      * constructor; [|constructor]. unfold free_of. cbn.
        rewrite bool_decide_eq_false_2 by exact Hne. reflexivity.
      * inversion IH; subst. constructor; [|assumption].
        unfold free_of in *. cbn.
        rewrite bool_decide_eq_false_2 by exact Hne. cbn. assumption.
Qed.

(** Every token consists of code units of the string. *)
Lemma split_forallb p sep s :
  forallb p s = true -> Forall (fun w => forallb p w = true) (split sep s).
Proof.
  induction s as [|c r IH]; cbn [split forallb]; intros Hs.
  - repeat constructor.
  - apply andb_true_iff in Hs. destruct Hs as [Hc Hr]. specialize (IH Hr).
    destruct (decide (c = sep)); [constructor; [reflexivity|exact IH]|].
    destruct (split sep r) as [|w ws].
    + constructor; [cbn; rewrite Hc; reflexivity|constructor].
    + inversion IH; subst. constructor; [|assumption].
      cbn. rewrite Hc. assumption.
Qed.

Lemma occurs_token sep (ws : list (list N)) w :
  w ∈ ws -> occurs w (join [sep] ws).
Proof.
  induction ws as [|a ws IH]; intros Hw; [apply elem_of_nil in Hw; contradiction|].
  apply elem_of_cons in Hw.
  destruct ws as [|b ws].
  - destruct Hw as [->|Hw]; [|apply elem_of_nil in Hw; contradiction].
    exists [], []. rewrite app_nil_l, app_nil_r. reflexivity.
  - change (join [sep] (a :: b :: ws)) with (a ++ [sep] ++ join [sep] (b :: ws)).
    destruct Hw as [->|Hw].
    + exists [], ([sep] ++ join [sep] (b :: ws)). reflexivity.
    + destruct (IH Hw) as (x & y & E). rewrite E.
      exists (a ++ [sep] ++ x), y. rewrite <- !app_assoc. reflexivity.
Qed.

Lemma forallb_rev {A} (p : A -> bool) (l : list A) : forallb p (rev l) = forallb p l.
Proof.
  induction l as [|c r IH]; [reflexivity|].
  cbn. rewrite forallb_app, IH. cbn. rewrite andb_true_r. apply andb_comm.
Qed.

Lemma trimStart_nil s : trimStart s = [] <-> forallb is_white_space s = true.
Proof.
  induction s as [|c r IH]; cbn; [tauto|].
  destruct (is_white_space c); cbn; [exact IH|].
  split; discriminate.
Qed.

Lemma trimStart_spaces s :
  forallb is_white_space (trimStart s) = true -> trimStart s = [].
Proof.
  induction s as [|c r IH]; cbn; [reflexivity|].
  destruct (is_white_space c) eqn:E; [exact IH|].
  cbn. rewrite E. discriminate.
Qed.

Lemma rev_nil {A} (s : list A) : rev s = [] -> s = [].
Proof.
  intros Hs. rewrite <- (rev_involutive s), Hs. reflexivity.
Qed.

(** A string trims to the empty string exactly when it consists of white
    space. *)
Lemma trim_nil s : trim s = [] <-> forallb is_white_space s = true.
Proof.
  unfold trim, trimEnd. split.
  - intros Hs. apply rev_nil in Hs. apply trimStart_nil in Hs.
    rewrite forallb_rev in Hs. apply trimStart_nil. apply trimStart_spaces. exact Hs.
  - intros Hs. apply trimStart_nil in Hs. rewrite Hs. reflexivity.
Qed.

(** *** ASCII strings under the case mappings *)

Lemma ascii_lower_ascii c : is_ascii c = true -> is_ascii (ascii_lower c) = true.
Proof.
  unfold is_ascii, ascii_lower. intros Hc. apply N.ltb_lt in Hc.
  destruct (((65 <=? c) && (c <=? 90))%N) eqn:E; apply N.ltb_lt; [|exact Hc].
  apply andb_true_iff in E. destruct E as [_ E]. apply N.leb_le in E. lia.
Qed.

Lemma ascii_upper_ascii c : is_ascii c = true -> is_ascii (ascii_upper c) = true.
Proof.
  unfold is_ascii, ascii_upper. intros Hc. apply N.ltb_lt in Hc.
  destruct (((97 <=? c) && (c <=? 122))%N) eqn:E; apply N.ltb_lt; lia.
Qed.

Lemma forallb_fmap_ascii (f : N -> N) s :
  (forall c, is_ascii c = true -> is_ascii (f c) = true) ->
  forallb is_ascii s = true -> forallb is_ascii (f <$> s) = true.
Proof.
  intros Hf. induction s as [|c r IH]; cbn; [reflexivity|].
  intros Hs. apply andb_true_iff in Hs. destruct Hs as [Hc Hr].
  rewrite (Hf c Hc), (IH Hr). reflexivity.
Qed.

Lemma ascii_lower_upper c : ascii_lower (ascii_upper c) = ascii_lower c.
Proof.
  unfold ascii_lower, ascii_upper.
  destruct (((97 <=? c) && (c <=? 122))%N) eqn:E1.
  - apply andb_true_iff in E1. destruct E1 as [E1 E2]. apply N.leb_le in E1, E2.
    replace ((65 <=? c - 32) && (c - 32 <=? 90))%N with true
      by (symmetry; apply andb_true_iff; rewrite !N.leb_le; lia).
    replace ((65 <=? c) && (c <=? 90))%N with false
      by (symmetry; apply andb_false_iff; right; apply N.leb_gt; lia).
    lia.
  - reflexivity.
Qed.

Lemma ascii_lower_lower c : ascii_lower (ascii_lower c) = ascii_lower c.
Proof.
  unfold ascii_lower.
  destruct (((65 <=? c) && (c <=? 90))%N) eqn:E1; [|rewrite E1; reflexivity].
  apply andb_true_iff in E1. destruct E1 as [E1 E2]. apply N.leb_le in E1, E2.
  replace ((65 <=? c + 32) && (c + 32 <=? 90))%N with false
    by (symmetry; apply andb_false_iff; right; apply N.leb_gt; lia).
  reflexivity.
Qed.

Lemma is_white_space_spec c :
  is_white_space c = true <->
  c ∈ [9; 10; 11; 12; 13; 32; 160; 5760; 8232; 8233; 8239; 8287; 12288; 65279]%N
  \/ (8192 <= c <= 8202)%N.
Proof.
  unfold is_white_space.
  rewrite orb_true_iff, bool_decide_eq_true, andb_true_iff, !N.leb_le. reflexivity.
Qed.

Lemma ascii_white_space c :
  is_ascii c = true ->
  is_white_space c = true <-> c ∈ [9; 10; 11; 12; 13; 32]%N.
Proof.
  unfold is_ascii. intros Hc. apply N.ltb_lt in Hc.
  rewrite is_white_space_spec, !elem_of_cons, !elem_of_nil. lia.
Qed.

Lemma white_space_upper c : is_white_space (ascii_upper c) = is_white_space c.
Proof.
  unfold ascii_upper.
  destruct (((97 <=? c) && (c <=? 122))%N) eqn:E1; [|reflexivity].
  apply andb_true_iff in E1. destruct E1 as [E1 E2]. apply N.leb_le in E1, E2.
  assert (Ha : is_white_space (c - 32) = false).
  { destruct (is_white_space (c - 32)) eqn:Ea; [|reflexivity].
    apply is_white_space_spec in Ea. rewrite !elem_of_cons, !elem_of_nil in Ea. lia. }
  assert (Hb : is_white_space c = false).
  { destruct (is_white_space c) eqn:Eb; [|reflexivity].
    apply is_white_space_spec in Eb. rewrite !elem_of_cons, !elem_of_nil in Eb. lia. }
  congruence.
Qed.

End JsFacts.

(** ** Dates and their ISO text *)
Module DateFacts.
Import Js JsFacts JsDate.

Local Open Scope Z_scope.

(** *** Decimal fields *)

Lemma digit_val_char d : 0 <= d < 10 -> digit_val (digit_char d) = Some d.
Proof.
  intros Hd.
  assert (E : d = 0 \/ d = 1 \/ d = 2 \/ d = 3 \/ d = 4 \/ d = 5 \/ d = 6
              \/ d = 7 \/ d = 8 \/ d = 9) by lia.
  repeat (destruct E as [->|E]; [reflexivity|]). subst. reflexivity.
Qed.

(** Reading back a field of [w] digits gives the number written, below
    [10 ^ w]. *)
Lemma read_digits_digits w n acc rest :
  read_digits w acc (digits w n ++ rest)
  = Some (acc * 10 ^ Z.of_nat w + n mod 10 ^ Z.of_nat w, rest).
Proof.
  revert acc. induction w as [|w IH]; intros acc.
  - cbn. rewrite Z.mod_1_r. do 2 f_equal. lia.
  - cbn [digits]. rewrite <- app_comm_cons. cbn [read_digits].
    rewrite digit_val_char by (apply Z.mod_pos_bound; lia).
    rewrite IH. do 2 f_equal.
    rewrite Nat2Z.inj_succ, Z.pow_succ_r by lia.
    rewrite (Z.mul_comm 10 (10 ^ Z.of_nat w)).
    rewrite Z.rem_mul_r by lia. lia.
Qed.

Lemma read_field w n rest :
  0 <= n < 10 ^ Z.of_nat w ->
  read_digits w 0 (digits w n ++ rest) = Some (n, rest).
Proof.
  intros Hn. rewrite read_digits_digits, Z.mod_small by exact Hn. reflexivity.
Qed.

Lemma read_year_digit c r d :
  digit_val c = Some d -> read_year (c :: r) = read_digits 4 0 (c :: r).
Proof.
  intros Hc. unfold read_year.
  destruct (decide (c = plus_sign)) as [->|_]; [discriminate Hc|].
  destruct (decide (c = hyphen)) as [->|_]; [discriminate Hc|]. reflexivity.
Qed.

Lemma read_year_text y rest :
  -999999 <= y <= 999999 ->
  read_year (year_text y ++ rest) = Some (y, rest).
Proof.
  intros Hy. unfold year_text.
  destruct ((0 <=? y) && (y <=? 9999)) eqn:E.
  - apply andb_true_iff in E. destruct E as [E1 E2].
    apply Z.leb_le in E1, E2.
    pose proof (read_field 4 y rest) as R.
    cbn [digits] in *. rewrite <- app_comm_cons in *.
    erewrite read_year_digit; [apply R; cbn; lia|].
    apply digit_val_char. apply Z.mod_pos_bound. lia.
  - destruct (y <? 0) eqn:Neg.
    + apply Z.ltb_lt in Neg. rewrite <- app_comm_cons.
      cbn [read_year]. rewrite decide_False by discriminate.
      rewrite decide_True by reflexivity.
      rewrite read_field by (cbn; lia).
      destruct (- y =? 0) eqn:Z0; [apply Z.eqb_eq in Z0; lia|].
      do 2 f_equal. lia.
    + apply Z.ltb_ge in Neg. rewrite <- app_comm_cons.
      cbn [read_year]. rewrite decide_True by reflexivity.
      rewrite read_field by (cbn; lia). reflexivity.
Qed.

(** *** The calendar *)

Ltac leap_cases :=
  unfold leap_day, isLeap;
  repeat match goal with
         | |- context [?a =? ?b] => destruct (Z.eqb_spec a b)
         end;
  cbn [andb orb negb].

(** One month of the case analysis: the month number and the days before it
    are computed, the rest is linear arithmetic. *)
Ltac month_case :=
  match goal with
  | m := _, off := _ |- _ =>
      vm_compute in (value of m); vm_compute in (value of off); subst m off
  end;
  match goal with
  | |- context [?a <=? 2] =>
      let v := eval vm_compute in (a <=? 2) in change (a <=? 2) with v
  end;
  cbv beta iota zeta delta [daysInMonth daysBeforeMonth];
  repeat match goal with
         | |- context [isLeap ?y] => destruct (isLeap y)
         | H : context [isLeap ?y] |- _ => destruct (isLeap y)
         end;
  timeout 60 lia.

(** March 1st of year [y] as a day number. *)
Lemma march_first y : DayFromYear y + 59 + leap_day y = year_start y - 719468.
Proof.
  unfold DayFromYear, year_start. leap_cases; Z.div_mod_to_equations; lia.
Qed.

Lemma next_year y : DayFromYear (y + 1) = DayFromYear y + 365 + leap_day y.
Proof.
  unfold DayFromYear.
  replace (y + 1 - 1970) with (y - 1969) by lia.
  replace (y + 1 - 1969) with (y - 1968) by lia.
  replace (y + 1 - 1901) with (y - 1900) by lia.
  replace (y + 1 - 1601) with (y - 1600) by lia.
  leap_cases; Z.div_mod_to_equations; lia.
Qed.

Lemma year_length y : year_start (y + 1) = year_start y + 365 + leap_day (y + 1).
Proof.
  pose proof (march_first y). pose proof (march_first (y + 1)).
  pose proof (next_year y). lia.
Qed.

(** The year of a day of the cycle. *)
Lemma year_of_cycle_day doe :
  0 <= doe < 146097 ->
  let yoe := (doe - doe / 1460 + doe / 36524 - doe / 146096) / 365 in
  0 <= yoe <= 399 /\ year_start yoe <= doe < year_start (yoe + 1).
Proof.
  intros Hdoe yoe. subst yoe. unfold year_start. Z.div_mod_to_equations. lia.
Qed.

(** A day of the cycle has a date of the calendar, and [MakeDay] of that
    date is the day, counted from the epoch. *)
Lemma cycle_day doe :
  0 <= doe < 146097 ->
  let '(y, m, d) := civil_of_cycle_day doe in
  0 <= y <= 400 /\ 1 <= m <= 12 /\ 1 <= d <= daysInMonth (isLeap y) m
  /\ MakeDay y m d = doe - 719468.
Proof.
  intros Hdoe. unfold civil_of_cycle_day.
  pose proof (year_of_cycle_day doe Hdoe) as Hy. cbv zeta in Hy.
  set (yoe := (doe - doe / 1460 + doe / 36524 - doe / 146096) / 365) in *.
  destruct Hy as (Hyoe & Hlo & Hhi).
  pose proof (year_length yoe) as Hlen.
  pose proof (march_first yoe) as Hm.
  pose proof (next_year yoe) as Hn.
  assert (E400 : yoe / 400 = 0) by (apply Z.div_small; lia).
  unfold year_start in Hlo, Hm, Hlen at 2. rewrite E400 in Hlo, Hm, Hlen.
  set (doy := doe - (365 * yoe + yoe / 4 - yoe / 100)) in *.
  assert (Edoy : doy = doe - (365 * yoe + yoe / 4 - yoe / 100)) by reflexivity.
  clearbody doy yoe.
  assert (Hdoy : 0 <= doy <= 365) by (unfold leap_day in Hlen; destruct (isLeap (yoe + 1)); lia).
  assert (Hmp : 0 <= (5 * doy + 2) / 153 <= 11) by (Z.div_mod_to_equations; lia).
  assert (Hk : exists k, (5 * doy + 2) / 153 = k /\ 0 <= k <= 11) by eauto.
  destruct Hk as (k & Ek & Hk). rewrite Ek.
  assert (Hr : 153 * k <= 5 * doy + 2 < 153 * (k + 1))
    by (rewrite <- Ek; Z.div_mod_to_equations; lia).
  unfold MakeDay, leap_day in *.
  set (m := if k <? 10 then k + 3 else k - 9).
  set (off := (153 * k + 2) / 5).
  assert (C : k = 0 \/ k = 1 \/ k = 2 \/ k = 3 \/ k = 4 \/ k = 5 \/ k = 6
              \/ k = 7 \/ k = 8 \/ k = 9 \/ k = 10 \/ k = 11) by lia.
  repeat (destruct C as [->|C]; [month_case|]).
  revert C. intros ->. month_case.
Qed.

Lemma DayFromYear_shift y k : DayFromYear (y + 400 * k) = DayFromYear y + 146097 * k.
Proof.
  unfold DayFromYear.
  replace (y + 400 * k - 1969) with (y - 1969 + (100 * k) * 4) by lia.
  replace (y + 400 * k - 1901) with (y - 1901 + (4 * k) * 100) by lia.
  replace (y + 400 * k - 1601) with (y - 1601 + k * 400) by lia.
  rewrite !Z.div_add by lia. lia.
Qed.

Lemma isLeap_shift y k : isLeap (y + 400 * k) = isLeap y.
Proof.
  unfold isLeap.
  replace ((y + 400 * k) mod 4) with (y mod 4)
    by (replace (y + 400 * k) with (y + (100 * k) * 4) by lia; symmetry; apply Z.mod_add; lia).
  replace ((y + 400 * k) mod 100) with (y mod 100)
    by (replace (y + 400 * k) with (y + (4 * k) * 100) by lia; symmetry; apply Z.mod_add; lia).
  replace ((y + 400 * k) mod 400) with (y mod 400)
    by (replace (y + 400 * k) with (y + k * 400) by lia; symmetry; apply Z.mod_add; lia).
  reflexivity.
Qed.

Lemma MakeDay_shift y m d k : MakeDay (y + 400 * k) m d = MakeDay y m d + 146097 * k.
Proof. unfold MakeDay. rewrite DayFromYear_shift, isLeap_shift. lia. Qed.

(** The date of a day number is a date of the calendar, and [MakeDay] takes
    it back to the day number. *)
Lemma civil_from_days_correct z :
  let '(y, m, d) := civil_from_days z in
  1 <= m <= 12 /\ 1 <= d <= daysInMonth (isLeap y) m /\ MakeDay y m d = z
  /\ 400 * ((z + 719468) / 146097) <= y <= 400 * ((z + 719468) / 146097) + 400.
Proof.
  unfold civil_from_days.
  pose proof (cycle_day ((z + 719468) mod 146097)
                (Z.mod_pos_bound _ 146097 eq_refl)) as Hc.
  destruct (civil_of_cycle_day ((z + 719468) mod 146097)) as [[y m] d].
  rewrite isLeap_shift, MakeDay_shift.
  pose proof (Z.div_mod (z + 719468) 146097). lia.
Qed.

(** *** The ISO text of a time value *)

Lemma expect_cons c rest : expect c (c :: rest) = Some rest.
Proof. cbn. destruct (decide (c = c)); congruence. Qed.

Lemma inRange_spec t : inRange t = true <-> - maxTime <= t <= maxTime.
Proof. unfold inRange. rewrite andb_true_iff, !Z.leb_le. reflexivity. Qed.

Lemma daysInMonth_le b m : daysInMonth b m <= 31.
Proof.
  unfold daysInMonth.
  repeat match goal with
         | |- context [match ?x with _ => _ end] => destruct x
         end; lia.
Qed.

(** [Date.parse(new Date(t).toISOString())] is [t], for every time value. *)
Lemma Date_parse_toISOString t :
  inRange t = true -> Date_parse (toISOString t) = Some t.
Proof.
  intros Ht. pose proof Ht as Hr. apply inRange_spec in Hr.
  unfold maxTime in Hr. unfold toISOString, msPerDay.
  pose proof (civil_from_days_correct (t / 86400000)) as Hc.
  destruct (civil_from_days (t / 86400000)) as [[y m] d].
  destruct Hc as (Hm & Hd & Hday & Hy).
  pose proof (daysInMonth_le (isLeap y) m) as Hdim.
  set (tod := t mod 86400000).
  assert (Htod : 0 <= tod < 86400000) by (apply Z.mod_pos_bound; lia).
  assert (Ey : -999999 <= y <= 999999) by (Z.div_mod_to_equations; lia).
  unfold Date_parse.
  rewrite read_year_text by exact Ey. cbn [mbind option_bind].
  rewrite expect_cons. cbn [mbind option_bind].
  rewrite read_field by (cbn; lia). cbn [mbind option_bind].
  rewrite expect_cons. cbn [mbind option_bind].
  rewrite read_field by (cbn; lia). cbn [mbind option_bind].
  rewrite expect_cons. cbn [mbind option_bind].
  rewrite read_field by (cbn; Z.div_mod_to_equations; lia). cbn [mbind option_bind].
  rewrite expect_cons. cbn [mbind option_bind].
  rewrite read_field by (cbn; Z.div_mod_to_equations; lia). cbn [mbind option_bind].
  rewrite expect_cons. cbn [mbind option_bind].
  rewrite read_field by (cbn; Z.div_mod_to_equations; lia). cbn [mbind option_bind].
  rewrite expect_cons. cbn [mbind option_bind].
  rewrite read_field by (cbn; Z.div_mod_to_equations; lia). cbn [mbind option_bind].
  rewrite expect_cons. cbn [mbind option_bind].
  rewrite bool_decide_eq_true_2 by reflexivity. cbn [negb].
  replace ((1 <=? m) && (m <=? 12)) with true
    by (symmetry; apply andb_true_iff; rewrite !Z.leb_le; lia).
  replace ((1 <=? d) && (d <=? daysInMonth (isLeap y) m)) with true
    by (symmetry; apply andb_true_iff; rewrite !Z.leb_le; lia).
  replace (tod / 3600000 <=? 23) with true
    by (symmetry; apply Z.leb_le; Z.div_mod_to_equations; lia).
  replace ((tod / 60000 mod 60 <=? 59) && (tod / 1000 mod 60 <=? 59)) with true
    by (symmetry; apply andb_true_iff; rewrite !Z.leb_le; Z.div_mod_to_equations; lia).
  cbn [negb orb].
  replace (MakeDay y m d * msPerDay + tod / 3600000 * 3600000
           + tod / 60000 mod 60 * 60000 + tod / 1000 mod 60 * 1000 + tod mod 1000)
    with t.
  - rewrite Ht. reflexivity.
  - rewrite Hday. unfold msPerDay. subst tod. Z.div_mod_to_equations. lia.
Qed.

End DateFacts.


(** ** Title generation *)
Module TitleFacts.
Import Js JsFacts Title.

Lemma filter_first {A} (f : A -> bool) (l : list A) :
  match List.filter f l with
  | x :: _ => exists pre post, l = pre ++ x :: post
                /\ Forall (fun y => f y = false) pre /\ f x = true
  | [] => Forall (fun y => f y = false) l
  end.
Proof.
  induction l as [|a l IH]; cbn; [constructor|].
  destruct (f a) eqn:Ha.
  - exists [], l. repeat split; [constructor|exact Ha].
  - destruct (List.filter f l) as [|x rest].
    + constructor; assumption.
    + destruct IH as (pre & post & -> & Hpre & Hx).
      exists (a :: pre), post. repeat split; [constructor; assumption|exact Hx].
Qed.

Lemma is_destination_false w : is_destination w = false <-> discarded w.
Proof.
  unfold is_destination, discarded.
  rewrite andb_false_iff, Nat.ltb_ge, negb_false_iff, bool_decide_eq_true.
  reflexivity.
Qed.

Lemma is_destination_true w : is_destination w = true <-> ~ discarded w.
Proof.
  rewrite <- is_destination_false. destruct (is_destination w); split; congruence.
Qed.

Section WithCaseMapping.
Context `{CaseMapping}.

(** The capital of a word of ASCII characters. *)
Lemma capitalize_ascii w :
  forallb is_ascii w = true ->
  capitalize w = (ascii_upper <$> charAt0 w) ++ slice1 w.
Proof.
  intros Hw. unfold capitalize. rewrite toUpperCase_ascii; [reflexivity|].
  destruct w as [|c r]; [reflexivity|]. cbn in *.
  apply andb_true_iff in Hw. destruct Hw as [-> _]. reflexivity.
Qed.

(** On a message of ASCII characters the title is the one the mapping of
    the ASCII letters gives, whatever the platform does elsewhere. *)
Lemma generateSessionTitle_ascii today firstMessage :
  forallb is_ascii firstMessage = true ->
  generateSessionTitle today firstMessage
  = generateSessionTitle (H := ascii_case_mapping) today firstMessage.
Proof.
  intros Hm. unfold generateSessionTitle.
  rewrite toLowerCase_ascii by exact Hm.
  change (@toLowerCase ascii_case_mapping firstMessage) with (ascii_lower <$> firstMessage).
  pose proof (split_forallb is_ascii space (ascii_lower <$> firstMessage)
                (forallb_fmap_ascii _ _ ascii_lower_ascii Hm)) as Ha.
  pose proof (filter_first is_destination (split space (ascii_lower <$> firstMessage))) as Hf.
  destruct (List.filter _ _) as [|d rest]; [reflexivity|].
  destruct Hf as (pre & post & E & _ & _).
  rewrite E in Ha. apply Forall_app in Ha. destruct Ha as [_ Ha].
  apply Forall_cons in Ha. destruct Ha as [Hd _].
  rewrite capitalize_ascii by exact Hd. reflexivity.
Qed.

(** C4, as the code has it: the message is put in lower case and cut at
    every single space character (and at nothing else); the title is
    "Trip to " followed by the first token that is longer than three code
    units and not in the stoplist, its first code unit put in upper case,
    and "Trip Plan - " followed by the localized date when every token is
    discarded. The example message about Kyoto gives "Trip to Kyoto". *)
Theorem generateSessionTitle_by_spaces (today firstMessage : str) :
  let tokens := split space (toLowerCase firstMessage) in
  (join [space] tokens = toLowerCase firstMessage
   /\ Forall (fun w => free_of space w = true) tokens)
  /\ ((exists pre w post,
         tokens = pre ++ w :: post /\ Forall discarded pre /\ ~ discarded w
         /\ generateSessionTitle today firstMessage = lit "Trip to " ++ capitalize w)
      \/ (Forall discarded tokens
          /\ generateSessionTitle today firstMessage = lit "Trip Plan - " ++ today))
  /\ (forall c r, capitalize (c :: r) = toUpperCase [c] ++ r)
  /\ generateSessionTitle today (lit "I want to visit Kyoto this spring")
     = lit "Trip to Kyoto"
  /\ generateSessionTitle today (lit "I want to plan a trip") = lit "Trip Plan - " ++ today.
Proof.
  intros tokens. split; [|split; [|split; [reflexivity|]]].
  - split; [apply join_split|apply split_free].
  - unfold generateSessionTitle. fold tokens.
    pose proof (filter_first is_destination tokens) as Hf.
    destruct (List.filter is_destination tokens) as [|d rest].
    + right. split; [|reflexivity].
      eapply Forall_impl; [exact Hf|]. intros w. apply is_destination_false.
    + left. destruct Hf as (pre & post & E & Hpre & Hd).
      exists pre, d, post. repeat split; [exact E| |apply is_destination_true; exact Hd].
      eapply Forall_impl; [exact Hpre|]. intros w. apply is_destination_false.
  - split; rewrite generateSessionTitle_ascii by reflexivity; reflexivity.
Qed.

End WithCaseMapping.

(** C4 as stated fails: a message whose words are separated by a line break
    is one token for the code, and the title carries the break and the word
    after it; cut on white space, the title would be "Trip to Rome". This is
    so under every case mapping: the message is ASCII. *)
Lemma generateSessionTitle_not_whitespace :
  let message := lit "Rome" ++ [10%N] ++ lit "in May" in
  let today := lit "1/1/2025" in
  (forall platform : CaseMapping,
     @generateSessionTitle platform today message
     = lit "Trip to Rome" ++ [10%N] ++ lit "in"
     /\ @spec_generateSessionTitle platform today message = lit "Trip to Rome"
     /\ @generateSessionTitle platform today message
        <> @spec_generateSessionTitle platform today message)
  /\ lit "Trip to Rome" ++ [10%N] ++ lit "in" <> lit "Trip to Rome".
Proof.
  cbv zeta. split; [|discriminate]. intros platform.
  assert (E1 : @generateSessionTitle platform (lit "1/1/2025")
                 (lit "Rome" ++ [10%N] ++ lit "in May")
               = lit "Trip to Rome" ++ [10%N] ++ lit "in").
  { rewrite generateSessionTitle_ascii by reflexivity. reflexivity. }
  assert (E2 : @spec_generateSessionTitle platform (lit "1/1/2025")
                 (lit "Rome" ++ [10%N] ++ lit "in May")
               = lit "Trip to Rome").
  { unfold spec_generateSessionTitle.
    change (List.filter _ (spec_tokens _)) with [lit "Rome"].
    cbv beta iota. rewrite (capitalize_ascii (H := platform)) by reflexivity. reflexivity. }
  rewrite E1, E2. split; [reflexivity|split; [reflexivity|discriminate]].
Qed.

End TitleFacts.

(** ** Trip-plan detection *)
Module MessageBubbleFacts.
Import Js JsFacts Chat MessageBubble.

Lemma role_cases (r : Role) : r = user_role \/ r = assistant_role.
Proof. destruct r; auto. Qed.

Section WithCaseMapping.
Context `{CaseMapping}.

(** C7. A message is flagged exactly when it is from the assistant and its
    text in lower case contains "itinerary", "day 1", "schedule" or
    "trip plan", or its text as it is contains both "## Day" and
    "**Start Date:**". So an assistant message containing
    "Here is your itinerary" is flagged, and no user message ever is. *)
Theorem containsTripPlan_correct :
  (forall m : Message,
     containsTripPlan m = true <->
     role m = assistant_role
     /\ (occurs (lit "itinerary") (toLowerCase (content m))
         \/ occurs (lit "day 1") (toLowerCase (content m))
         \/ occurs (lit "schedule") (toLowerCase (content m))
         \/ occurs (lit "trip plan") (toLowerCase (content m))
         \/ (occurs (lit "## Day") (content m)
             /\ occurs (lit "**Start Date:**") (content m))))
  /\ (forall m : Message,
        role m = assistant_role ->
        occurs (lit "Here is your itinerary") (content m) ->
        containsTripPlan m = true)
  /\ (forall m : Message, role m = user_role -> containsTripPlan m = false).
Proof.
  assert (Hiff : forall m : Message,
     containsTripPlan m = true <->
     role m = assistant_role
     /\ (occurs (lit "itinerary") (toLowerCase (content m))
         \/ occurs (lit "day 1") (toLowerCase (content m))
         \/ occurs (lit "schedule") (toLowerCase (content m))
         \/ occurs (lit "trip plan") (toLowerCase (content m))
         \/ (occurs (lit "## Day") (content m)
             /\ occurs (lit "**Start Date:**") (content m)))).
  { intros m. unfold containsTripPlan, isUser.
    rewrite andb_true_iff, negb_true_iff, bool_decide_eq_false.
    rewrite !orb_true_iff, andb_true_iff, !includes_spec.
    destruct (role_cases (role m)) as [E|E]; rewrite E; intuition congruence. }
  split; [exact Hiff|split].
  - intros m Hrole (a & b & E). apply Hiff. split; [exact Hrole|]. left.
    destruct (toLowerCase_ascii_part a (lit "Here is your itinerary") b eq_refl)
      as (a' & b' & L).
    rewrite E, L. exists (a' ++ lit "here is your "), b'.
    rewrite <- app_assoc. reflexivity.
  - intros m Hrole. destruct (containsTripPlan m) eqn:E; [|reflexivity].
    apply Hiff in E. destruct E as [E _]. congruence.
Qed.

End WithCaseMapping.

(** Samples, evaluated with the mapping of the ASCII letters: their texts are
    ASCII. *)
Section Samples.
#[local] Existing Instance ascii_case_mapping.

(** The theorem at an assistant message and at the same text from the user. *)
Lemma containsTripPlan_witness :
  containsTripPlan
    {| mid := lit "msg_2"; content := lit "Here is your itinerary for Kyoto";
       role := assistant_role; timestamp := JsDate.Instant 0; typing := None |} = true
  /\ containsTripPlan
       {| mid := lit "msg_1"; content := lit "Here is your itinerary for Kyoto";
          role := user_role; timestamp := JsDate.Instant 0; typing := None |} = false.
Proof.
  destruct containsTripPlan_correct as (_ & Hflag & Huser). split.
  - apply Hflag; [reflexivity|]. exists [], (lit " for Kyoto"). reflexivity.
  - apply Huser. reflexivity.
Defined.

End Samples.

End MessageBubbleFacts.

(** ** Search *)
Module SearchFacts.
Import Js JsFacts Chat.

Lemma blank_spec q : blank q = true <-> forallb is_white_space q = true.
Proof.
  unfold blank. rewrite <- trim_nil.
  destruct (trim q); cbn; split; congruence.
Qed.

Lemma filter_sublist {A} (f : A -> bool) (l : list A) : sublist (List.filter f l) l.
Proof.
  induction l as [|a l IH]; cbn; [constructor|].
  destruct (f a); [apply sublist_skip|apply sublist_cons]; exact IH.
Qed.

Section WithCaseMapping.
Context `{CaseMapping}.

Lemma matches_spec q s : matches q s = true <-> hit q s.
Proof.
  unfold matches, hit. rewrite orb_true_iff, includes_spec, existsb_exists.
  split; (intros [Ho|(m & Hm & Ho)]; [left; exact Ho|right; exists m]).
  - rewrite list_elem_of_In, <- includes_spec. auto.
  - rewrite <- list_elem_of_In, includes_spec. auto.
Qed.

(** The lower case of a query of ASCII characters does not depend on the
    case it is typed in. *)
Lemma lower_upper_ascii q :
  forallb is_ascii q = true -> toLowerCase (toUpperCase q) = toLowerCase q.
Proof.
  intros Hq. rewrite (toUpperCase_ascii q Hq).
  rewrite toLowerCase_ascii by (apply forallb_fmap_ascii; [apply ascii_upper_ascii|exact Hq]).
  rewrite (toLowerCase_ascii q Hq), <- list_fmap_compose.
  apply list_fmap_ext. intros _ c _. apply ascii_lower_upper.
Qed.

(** C6. The empty query and a query of white space (the white space [trim]
    strips) give the whole collection; any other query gives, in their
    order, exactly the sessions in which the query occurs without regard to
    case, in the title or in a message: the lower case of the query occurs
    in the lower case of the text, so that a query of ASCII characters
    matches the same sessions in upper case. The result is computed from the
    state, which the search leaves as it is (the function returns a list and
    no state). *)
Theorem searchSessions_correct (st : State) (q : str) :
  searchSessions [] st = sessions st
  /\ searchSessions (lit "   ") st = sessions st
  /\ (forallb is_white_space q = true -> searchSessions q st = sessions st)
  /\ (forallb is_white_space q = false ->
      sublist (searchSessions q st) (sessions st)
      /\ forall s, s ∈ searchSessions q st <-> s ∈ sessions st /\ hit q s)
  /\ (forallb is_ascii q = true -> forall s, hit (toUpperCase q) s <-> hit q s).
Proof.
  split; [reflexivity|split; [reflexivity|split; [|split]]].
  - intros Hq. unfold searchSessions. apply blank_spec in Hq. rewrite Hq. reflexivity.
  - intros Hq. unfold searchSessions.
    destruct (blank q) eqn:E; [apply blank_spec in E; congruence|].
    split; [apply filter_sublist|].
    intros s. rewrite !list_elem_of_In, filter_In, matches_spec. reflexivity.
  - intros Hq s. unfold hit. rewrite (lower_upper_ascii q Hq). reflexivity.
Qed.

End WithCaseMapping.

(** Samples, evaluated with the mapping of the ASCII letters: their texts are
    ASCII. *)
Section Samples.
#[local] Existing Instance ascii_case_mapping.

(** The sample collection searched for "KYOTO" and for a query of a tab, a
    no-break space and an em space. *)
Lemma searchSessions_correct_witness :
  searchSessions (lit "KYOTO") (sample (Some alice)) = [kyoto]
  /\ searchSessions [9; 160; 8195]%N (sample (Some alice)) = [fresh; kyoto].
Proof.
  destruct (searchSessions_correct (sample (Some alice)) [9; 160; 8195]%N)
    as (_ & _ & Hblank & _).
  split; [reflexivity|]. apply Hblank. reflexivity.
Defined.

End Samples.

End SearchFacts.


(** ** The chat/session state manager *)
Module ChatFacts.
Import Js JsDate Json Title Chat ChatRuns.

(** *** A failed send *)

(** Whatever happened during the await, a fetch that fails puts the session
    of the call back and writes neither the collection nor the storage. *)
Lemma settle_failure env p r st :
  failed r = true ->
  let st' := sendMessage_settle env p r st in
  currentSession st' = Some (p_current p)
  /\ isTyping st' = false /\ loading st' = false
  /\ sessions st' = sessions st
  /\ localStorage st' = localStorage st.
Proof. destruct r; cbn; intros Hf; try discriminate; repeat split. Qed.

Lemma elem_of_replace_session target new ss s :
  s ∈ ss -> sid s = target -> new ∈ replace_session target new ss.
Proof.
  intros Hin Hid. unfold replace_session. apply list_elem_of_fmap.
  exists s. split; [|exact Hin]. destruct (decide (sid s = target)); congruence.
Qed.






Lemma saveSessions_lookup u ss storage :
  saveSessions (Some u) ss storage !! sessions_key (Some u)
  = Some (Doc (sessionsJSON ss)).
Proof. unfold saveSessions, JSON_stringify. apply lookup_insert_eq. Qed.

Lemma saveSessions_other u ss storage k :
  k <> sessions_key u -> saveSessions u ss storage !! k = storage !! k.
Proof.
  intros Hk. unfold saveSessions. destruct u; [|reflexivity].
  apply lookup_insert_ne. congruence.
Qed.

Section WithCaseMapping.
Context `{CaseMapping}.

(** C1. With a current session, a send whose fetch is rejected, is answered
    with a response that is not ok, or with a body that is not JSON, first
    shows the session with the user message appended and ends with the
    session of before the call as the current one, both flags false, the
    collection and the storage as they were, one request issued and an
    error toast shown. *)
Theorem sendMessage_failure_reverts (env env' : Env) (text : str)
    (r : FetchResult) (st : State) (current : ChatSession) :
  currentSession st = Some current ->
  failed r = true ->
  let st' := sendMessage env env' text r st in
  (exists shown, currentSession (sendMessage_begin env text st).1 = Some shown
     /\ exists m, messages shown = messages current ++ [m]
          /\ content m = text /\ role m = user_role)
  /\ currentSession st' = Some current
  /\ isTyping st' = false /\ loading st' = false
  /\ sessions st' = sessions st
  /\ localStorage st' = localStorage st
  /\ (exists q, requests st' = requests st ++ [q]
         /\ req_message q = text /\ req_session_id q = sid current)
  /\ exists t, toasts st' = toasts st ++ [t] /\ destructive t = true.
Proof.
  intros Hcur Hfail. unfold sendMessage, sendMessage_begin. rewrite Hcur.
  split.
  - eexists. split; [reflexivity|]. eexists. cbn. repeat split.
  - destruct r; try discriminate; cbn; repeat split;
      eexists; repeat split; reflexivity.
Qed.

(** *** The current session is a member of the collection *)







End WithCaseMapping.


Section MoreWithCaseMapping.
Context `{CaseMapping}.

(** *** Deletion *)

(** C5. Deleting a session removes the sessions with that id and no other,
    keeps the order of the rest and hands the rest to the persistence write,
    which stores it under the key of the active user. A current session with
    the deleted id is replaced by the first remaining session, or by none
    when nothing remains; any other current session stays. *)
Theorem deleteSession_correct (sessionId : str) (st : State) :
  let st' := deleteSession sessionId st in
  (forall s, s ∈ sessions st' <-> s ∈ sessions st /\ sid s <> sessionId)
  /\ sublist (sessions st') (sessions st)
  /\ localStorage st' = saveSessions (user st) (sessions st') (localStorage st)
  /\ (forall u, user st = Some u ->
        localStorage st' !! sessions_key (Some u) = Some (Doc (sessionsJSON (sessions st'))))
  /\ (forall current, currentSession st = Some current -> sid current = sessionId ->
        currentSession st' = head (sessions st'))
  /\ (forall current, currentSession st = Some current -> sid current <> sessionId ->
        currentSession st' = Some current)
  /\ (currentSession st = None -> currentSession st' = None).
Proof.
  assert (Hs : sessions (deleteSession sessionId st)
               = filter (fun s => sid s ≠ sessionId) (sessions st)).
  { unfold deleteSession. destruct (currentSession st) as [c|]; [|reflexivity].
    destruct (decide (sid c = sessionId)); reflexivity. }
  assert (Hl : localStorage (deleteSession sessionId st)
               = saveSessions (user st)
                   (filter (fun s => sid s ≠ sessionId) (sessions st)) (localStorage st)).
  { unfold deleteSession. destruct (currentSession st) as [c|]; [|reflexivity].
    destruct (decide (sid c = sessionId)); reflexivity. }
  cbv zeta. rewrite Hs, Hl.
  split; [|split; [|split; [|split; [|split; [|split]]]]].
  - intros s. rewrite list_elem_of_filter. tauto.
  - apply sublist_filter.
  - reflexivity.
  - intros u Hu. rewrite Hu. apply saveSessions_lookup.
  - intros c Hc E. unfold deleteSession. rewrite Hc.
    destruct (decide (sid c = sessionId)); [reflexivity|contradiction].
  - intros c Hc E. unfold deleteSession. rewrite Hc.
    destruct (decide (sid c = sessionId)); [contradiction|cbn; exact Hc].
  - intros Hc. unfold deleteSession. rewrite Hc. cbn. exact Hc.
Qed.

(** *** A send without a current session *)

(** C9. Without a current session a send does what [createNewSession] does
    and nothing more: a new session with no message is put in front of the
    collection, made current and handed to the persistence write; the text is
    in no session, no request is issued and no flag is raised, whatever the
    text and whatever a fetch would have returned. *)
Theorem sendMessage_without_session (env env' : Env) (text : str)
    (r : FetchResult) (st : State) :
  currentSession st = None ->
  let st' := sendMessage env env' text r st in
  st' = createNewSession env st
  /\ (exists new, sessions st' = new :: sessions st
        /\ currentSession st' = Some new
        /\ messages new = []
        /\ localStorage st' = saveSessions (user st) (new :: sessions st) (localStorage st)
        /\ forall u, user st = Some u ->
             localStorage st' !! sessions_key (Some u)
             = Some (Doc (sessionsJSON (new :: sessions st))))
  /\ requests st' = requests st
  /\ isTyping st' = isTyping st /\ loading st' = loading st.
Proof.
  intros Hcur. unfold sendMessage, sendMessage_begin. rewrite Hcur. cbn.
  split; [reflexivity|split; [|repeat split]].
  eexists. repeat split. intros u Hu. rewrite Hu. apply saveSessions_lookup.
Qed.

(** *** Without a user *)

Lemma sessions_withUser op u st :
  sessions (run op (withUser u st)) = sessions (run op st)
  /\ currentSession (run op (withUser u st)) = currentSession (run op st).
Proof.
  destruct op; cbn.
  - split; reflexivity.
  - unfold selectSession. cbn. destruct (List.find _ _); split; reflexivity.
  - unfold sendMessage, sendMessage_begin. cbn.
    destruct (currentSession st); [|split; reflexivity].
    destruct r; split; reflexivity.
  - unfold deleteSession. cbn. destruct (currentSession st) as [c|]; [|split; reflexivity].
    destruct (decide (sid c = sessionId)); split; reflexivity.
  - unfold clearCurrentChat. cbn. destruct (currentSession st); split; reflexivity.
Qed.

(** C10. Without a user no operation writes the storage: localStorage is
    after the operation what it was before, under every key. The collection
    and the current session in memory become what they become with a user:
    a creation puts a new session without messages in front; a deletion
    leaves the sessions with another id; a clearing puts the current session
    without its messages in the place of every session with its id; an
    answered send puts the current session with the message and the reply
    appended in the place of every session with its id. *)
Theorem no_user_no_write (op : Op) (st : State) :
  user st = None ->
  localStorage (run op st) = localStorage st
  /\ (forall u, sessions (run op st) = sessions (run op (withUser (Some u) st))
                /\ currentSession (run op st) = currentSession (run op (withUser (Some u) st)))
  /\ (forall env, exists new,
        sessions (createNewSession env st) = new :: sessions st
        /\ currentSession (createNewSession env st) = Some new
        /\ messages new = [])
  /\ (forall sessionId,
        sessions (deleteSession sessionId st)
        = filter (fun s => sid s ≠ sessionId) (sessions st))
  /\ (forall env current, currentSession st = Some current ->
        exists cleared,
          sessions (clearCurrentChat env st)
          = (fun s => if decide (sid s = sid current) then cleared else s) <$> sessions st
          /\ currentSession (clearCurrentChat env st) = Some cleared
          /\ sid cleared = sid current /\ messages cleared = []
          /\ title cleared = lit "New Trip Plan")
  /\ (forall env env' text response current, currentSession st = Some current ->
        exists final question answer,
          sessions (sendMessage env env' text (Reply response) st)
          = (fun s => if decide (sid s = sid current) then final else s) <$> sessions st
          /\ currentSession (sendMessage env env' text (Reply response) st) = Some final
          /\ sid final = sid current
          /\ messages final = messages current ++ [question; answer]
          /\ content question = text /\ role question = user_role
          /\ content answer = response /\ role answer = assistant_role).
Proof.
  intros Hu. split; [|split; [|split; [|split; [|split]]]].
  - destruct op; cbn.
    + unfold createNewSession. cbn. rewrite Hu. reflexivity.
    + unfold selectSession. destruct (List.find _ _); reflexivity.
    + unfold sendMessage, sendMessage_begin.
      destruct (currentSession st).
      * destruct r; cbn; rewrite ?Hu; reflexivity.
      * cbn. rewrite Hu. reflexivity.
    + unfold deleteSession. destruct (currentSession st) as [c|].
      * destruct (decide (sid c = sessionId)); cbn; rewrite Hu; reflexivity.
      * cbn. rewrite Hu. reflexivity.
    + unfold clearCurrentChat. destruct (currentSession st); cbn; rewrite ?Hu; reflexivity.
  - intros u. destruct (sessions_withUser op (Some u) st) as [H1 H2]. split; congruence.
  - intros env. eexists. repeat split.
  - intros sessionId. unfold deleteSession.
    destruct (currentSession st) as [c|]; [|reflexivity].
    destruct (decide (sid c = sessionId)); reflexivity.
  - intros env current Hc. unfold clearCurrentChat. rewrite Hc.
    eexists. repeat split.
  - intros env env' text response current Hc.
    unfold sendMessage, sendMessage_begin. rewrite Hc.
    eexists _, _, _. split; [reflexivity|]. split; [reflexivity|]. split; [reflexivity|].
    split; [cbn; rewrite <- List.app_assoc; reflexivity|]. repeat split.
Qed.

End MoreWithCaseMapping.

(** Samples, evaluated with the mapping of the ASCII letters: their texts are
    ASCII. *)
Section Samples.
#[local] Existing Instance ascii_case_mapping.

Lemma sendMessage_failure_reverts_witness :
  let st' := sendMessage noon later (lit "Kyoto in spring") Rejected (sample (Some alice)) in
  currentSession st' = Some fresh /\ isTyping st' = false /\ loading st' = false
  /\ sessions st' = [fresh; kyoto] /\ localStorage st' = ∅.
Proof.
  pose proof (sendMessage_failure_reverts noon later (lit "Kyoto in spring") Rejected
                (sample (Some alice)) fresh eq_refl eq_refl) as Hw.
  cbn in Hw. destruct Hw as (_ & H1 & H2 & H3 & H4 & H5 & _).
  repeat split; assumption.
Defined.


(** Deleting the current session of the sample: the other session remains,
    is stored for the user and becomes the current one. *)
Lemma deleteSession_correct_witness :
  let st' := deleteSession (lit "session_1700000500000") (sample (Some alice)) in
  sessions st' = [kyoto]
  /\ localStorage st' !! lit "trip_planner_sessions_u1"
     = Some (Doc (sessionsJSON (sessions st')))
  /\ currentSession st' = head (sessions st').
Proof.
  pose proof (deleteSession_correct (lit "session_1700000500000") (sample (Some alice)))
    as Hw.
  destruct Hw as (_ & _ & _ & Hp & Hc & _).
  split; [reflexivity|split].
  - apply (Hp alice). reflexivity.
  - apply (Hc fresh); reflexivity.
Defined.

Lemma sendMessage_without_session_witness :
  let st := initial (Some alice) ∅ in
  let st' := sendMessage noon later (lit "Kyoto in spring")
               (Reply (lit "Here is your itinerary")) st in
  st' = createNewSession noon st /\ requests st' = [].
Proof.
  pose proof (sendMessage_without_session noon later (lit "Kyoto in spring")
                (Reply (lit "Here is your itinerary")) (initial (Some alice) ∅) eq_refl)
    as Hw.
  destruct Hw as (H1 & _ & H2 & _). split; [exact H1|exact H2].
Defined.

(** A send that succeeds without a user: the reply is in the collection in
    memory and the storage is still empty. *)
Lemma no_user_no_write_witness :
  let st' := run (SendMessage noon later (lit "Kyoto in spring")
                    (Reply (lit "Here is your itinerary")))
               (sample None) in
  localStorage st' = ∅
  /\ List.length (sessions st') = 2%nat
  /\ (messages <$> head (sessions st')) ≠ (messages <$> head (sessions (sample None))).
Proof.
  pose proof (no_user_no_write
                (SendMessage noon later (lit "Kyoto in spring")
                   (Reply (lit "Here is your itinerary")))
                (sample None) eq_refl) as Hw.
  destruct Hw as (Hw & _). split; [exact Hw|split; [reflexivity|discriminate]].
Defined.

End Samples.

End ChatFacts.

(** ** The auth state manager at startup *)
Module AuthFacts.
Import Js Json Auth.

Lemma entry_absent x : entry x = Absent -> present x = false.
Proof. destruct x as [[j|[|c t]]|]; cbn; congruence. Qed.

Lemma entry_holds x j : entry x = Holds j -> present x = true /\ x ≫= JSON_parse = Some j.
Proof. destruct x as [[j'|[|c t]]|]; cbn; try congruence. intros [= ->]. auto. Qed.

Lemma entry_corrupted x : entry x = Corrupted -> present x = true /\ x ≫= JSON_parse = None.
Proof. destruct x as [[j'|[|c t]]|]; cbn; try congruence. auto. Qed.

(** C8. The guest entry of sessionStorage is looked at first: when it holds
    a document, that document becomes the user. Only when there is no guest
    entry is the registered-user entry of localStorage looked at, and its
    document becomes the user. With neither entry the user is null. When the
    entry that is looked at does not parse, both entries are removed and the
    user is null. Loading ends in every case, and nothing else in either
    storage changes. *)
Theorem checkExistingSession_correct (st : State) :
  let guest := entry (sessionStorage st !! guest_key) in
  let regular := entry (localStorage st !! user_key) in
  let st' := checkExistingSession st in
  loading st' = false
  /\ (forall j, guest = Holds j ->
        user st' = Value j
        /\ sessionStorage st' = sessionStorage st /\ localStorage st' = localStorage st)
  /\ (forall j, guest = Absent -> regular = Holds j ->
        user st' = Value j
        /\ sessionStorage st' = sessionStorage st /\ localStorage st' = localStorage st)
  /\ (guest = Absent -> regular = Absent ->
        user st' = Value JNull
        /\ sessionStorage st' = sessionStorage st /\ localStorage st' = localStorage st)
  /\ (guest = Corrupted \/ (guest = Absent /\ regular = Corrupted) ->
        user st' = Value JNull
        /\ sessionStorage st' !! guest_key = None
        /\ localStorage st' !! user_key = None
        /\ (forall k, k <> guest_key -> sessionStorage st' !! k = sessionStorage st !! k)
        /\ (forall k, k <> user_key -> localStorage st' !! k = localStorage st !! k)).
Proof.
  intros guest regular st'. subst st'. unfold checkExistingSession.
  split; [|split; [|split; [|split]]].
  - destruct (present _); [destruct (_ ≫= _); reflexivity|].
    destruct (present _); [destruct (_ ≫= _); reflexivity|reflexivity].
  - intros j Hg. apply entry_holds in Hg. destruct Hg as [-> ->]. auto.
  - intros j Hg Hr. apply entry_absent in Hg. apply entry_holds in Hr.
    destruct Hr as [Hr1 Hr2]. rewrite Hg, Hr1, Hr2. auto.
  - intros Hg Hr. apply entry_absent in Hg, Hr. rewrite Hg, Hr. auto.
  - assert (Hclear : forall s : State,
             user (clearCorrupted s) = Value JNull
             /\ sessionStorage (clearCorrupted s) !! guest_key = None
             /\ localStorage (clearCorrupted s) !! user_key = None
             /\ (forall k, k <> guest_key ->
                   sessionStorage (clearCorrupted s) !! k = sessionStorage s !! k)
             /\ (forall k, k <> user_key ->
                   localStorage (clearCorrupted s) !! k = localStorage s !! k)).
    { intros s. cbn. split; [reflexivity|]. split; [apply lookup_delete_eq|].
      split; [apply lookup_delete_eq|].
      split; intros k Hk; apply lookup_delete_ne; congruence. }
    intros [Hg|[Hg Hr]].
    + apply entry_corrupted in Hg. destruct Hg as [-> ->]. apply Hclear.
    + apply entry_absent in Hg. apply entry_corrupted in Hr.
      destruct Hr as [Hr1 Hr2]. rewrite Hg, Hr1, Hr2. apply Hclear.
Qed.

(** A guest entry that does not parse: the registered user is not logged in,
    and both entries are gone. *)
Lemma checkExistingSession_correct_witness :
  let st' := checkExistingSession broken_guest in
  user st' = Value JNull
  /\ sessionStorage st' !! guest_key = None
  /\ localStorage st' !! user_key = None.
Proof.
  pose proof (checkExistingSession_correct broken_guest) as Hw.
  destruct Hw as (_ & _ & _ & _ & Hw).
  destruct Hw as (H1 & H2 & H3 & _); [left; reflexivity|].
  split; [exact H1|split; [exact H2|exact H3]].
Defined.

End AuthFacts.

(** ** Persistence: saving and loading the collection *)
Module PersistenceFacts.
Import Js JsFacts JsDate Json Chat DateFacts.

Lemma newDate_dateJSON d : validDate d = true -> newDate (Some (dateJSON d)) = d.
Proof.
  destruct d as [t|]; cbn [validDate dateJSON toJSON_text newDate]; [|discriminate].
  intros Ht. rewrite Date_parse_toISOString by exact Ht. reflexivity.
Qed.

Lemma as_role_text r : as_role (Some (JStr (role_text r))) = Some r.
Proof. destruct r; reflexivity. Qed.

Lemma mapM_revive {A} (f : json -> option A) (g : A -> json) (h : A -> A) (l : list A) :
  Forall (fun x => f (g x) = Some (h x)) l -> mapM f (g <$> l) = Some (h <$> l).
Proof.
  induction 1 as [|x l Hx _ IH]; [reflexivity|].
  cbn [fmap list_fmap mapM]. rewrite Hx. cbn [mbind option_bind].
  rewrite IH. reflexivity.
Qed.

(** A message and a session, written and read again. *)
Lemma reviveMessage_reread m : reviveMessage (messageJSON m) = Some (reread_message m).
Proof.
  destruct m as [i c r t ty]. unfold messageJSON, reviveMessage, reread_message, reread_date.
  cbn [mid content role timestamp typing].
  generalize (dateJSON t) as vt. intros vt.
  pose proof (as_role_text r) as Hr. revert Hr.
  generalize (JStr (role_text r)) as vr. intros vr Hr.
  destruct ty as [b|].
  - change (jget (lit "id") _) with (Some (JStr i)).
    change (jget (lit "content") _) with (Some (JStr c)).
    change (jget (lit "role") _) with (Some vr).
    change (jget (lit "isTyping") _) with (Some (JBool b)).
    change (jget (lit "timestamp") _) with (Some vt).
    rewrite Hr. reflexivity.
  - change (jget (lit "id") _) with (Some (JStr i)).
    change (jget (lit "content") _) with (Some (JStr c)).
    change (jget (lit "role") _) with (Some vr).
    change (jget (lit "isTyping") _) with (@None json).
    change (jget (lit "timestamp") _) with (Some vt).
    rewrite Hr. reflexivity.
Qed.

Lemma reviveSession_reread s : reviveSession (sessionJSON s) = Some (reread_session s).
Proof.
  destruct s as [i t ms c u]. unfold sessionJSON, reviveSession, reread_session, reread_date.
  cbn [sid title messages createdAt updatedAt].
  generalize (dateJSON c) as vc. intros vc.
  generalize (dateJSON u) as vu. intros vu.
  assert (Em : mapM reviveMessage (messageJSON <$> ms) = Some (reread_message <$> ms)).
  { apply mapM_revive. apply Forall_forall. intros m _. apply reviveMessage_reread. }
  revert Em. generalize (messageJSON <$> ms) as vm. intros vm Em.
  change (jget (lit "id") _) with (Some (JStr i)).
  change (jget (lit "title") _) with (Some (JStr t)).
  change (jget (lit "messages") _) with (Some (JArr vm)).
  change (jget (lit "createdAt") _) with (Some vc).
  change (jget (lit "updatedAt") _) with (Some vu).
  cbn [as_string mbind option_bind]. rewrite Em. reflexivity.
Qed.

Lemma reread_message_valid m : valid_message m = true -> reread_message m = m.
Proof.
  destruct m as [i c r t ty]. unfold valid_message, reread_message, reread_date.
  cbn [mid content role timestamp typing]. intros Hv.
  rewrite (newDate_dateJSON t Hv). reflexivity.
Qed.

Lemma reread_session_valid s : valid_session s = true -> reread_session s = s.
Proof.
  destruct s as [i t ms c u]. unfold valid_session, reread_session, reread_date.
  cbn [sid title messages createdAt updatedAt]. intros Hv.
  apply andb_true_iff in Hv. destruct Hv as [Hv Hms].
  apply andb_true_iff in Hv. destruct Hv as [Hc Hu].
  rewrite (newDate_dateJSON c Hc), (newDate_dateJSON u Hu). f_equal.
  rewrite forallb_forall in Hms.
  induction ms as [|m ms IH]; [reflexivity|].
  rewrite fmap_cons, reread_message_valid by (apply Hms; left; reflexivity).
  rewrite IH by (intros x Hx; apply Hms; right; exact Hx). reflexivity.
Qed.

Lemma reread_sessions_valid ss :
  Forall (fun s => valid_session s = true) ss -> reread_session <$> ss = ss.
Proof.
  induction 1 as [|s ss Hs _ IH]; [reflexivity|].
  rewrite fmap_cons, (reread_session_valid s Hs), IH. reflexivity.
Qed.

Lemma reviveSession_sessionJSON s :
  valid_session s = true -> reviveSession (sessionJSON s) = Some s.
Proof. intros Hv. rewrite reviveSession_reread, (reread_session_valid s Hv). reflexivity. Qed.

Lemma parse_saved_reread u ss storage :
  parseSessions (saveSessions (Some u) ss storage !! sessions_key (Some u))
  = Some (reread_session <$> ss).
Proof.
  unfold saveSessions. rewrite lookup_insert_eq.
  unfold parseSessions, JSON_stringify, sessionsJSON.
  cbn [mbind option_bind JSON_parse reviveSessions].
  apply mapM_revive. apply Forall_forall. intros s _. apply reviveSession_reread.
Qed.

(** C3, as the code has it. A collection saved for a user and loaded by a
    provider that starts for that user is parsed back to the same sessions
    in the same order, each with its id, title and messages (id, content,
    role), and with every date read again from what was written for it: a
    valid date (a time value) comes back as the same instant, an invalid
    date comes back as the epoch. So a collection whose dates are all valid
    comes back equal, and its first session becomes the current one. *)
Theorem save_load_roundtrip (u : User) (ss : list ChatSession)
    (storage : gmap str stored) :
  let st := startup (Some u) (saveSessions (Some u) ss storage) in
  (forallb valid_session ss = true ->
     parseSessions (saveSessions (Some u) ss storage !! sessions_key (Some u)) = Some ss
     /\ sessions st = ss
     /\ currentSession st = head ss)
  /\ sessions st = reread_session <$> ss
  /\ currentSession st = head (reread_session <$> ss)
  /\ (forall d, validDate d = true -> reread_date d = d)
  /\ reread_date InvalidDate = Instant 0.
Proof.
  assert (E : parseSessions (saveSessions (Some u) ss storage !! sessions_key (Some u))
              = Some (reread_session <$> ss)) by apply parse_saved_reread.
  assert (P : present (saveSessions (Some u) ss storage !! sessions_key (Some u)) = true).
  { unfold saveSessions. rewrite lookup_insert_eq. reflexivity. }
  assert (S : sessions (startup (Some u) (saveSessions (Some u) ss storage))
              = reread_session <$> ss
              /\ currentSession (startup (Some u) (saveSessions (Some u) ss storage))
                 = head (reread_session <$> ss)).
  { unfold startup, onUser, loadSessions.
    cbn [initial user localStorage currentSession]. rewrite E, P.
    destruct (reread_session <$> ss) as [|first rest]; split; reflexivity. }
  cbv zeta. destruct S as [S1 S2].
  split; [|split; [exact S1|split; [exact S2|split; [exact newDate_dateJSON|reflexivity]]]].
  intros Hv.
  assert (R : reread_session <$> ss = ss).
  { apply reread_sessions_valid. apply Forall_forall. intros s Hs.
    rewrite forallb_forall in Hv. apply Hv, list_elem_of_In, Hs. }
  rewrite E, S1, S2, R. auto.
Qed.

(** C3 as stated fails for a collection with an invalid date. Such a
    collection is one the load itself builds: from a stored session without
    [createdAt], [new Date(undefined)] is an invalid date. [JSON.stringify]
    writes an invalid date as [null], and [new Date(null)] is the epoch:
    saved and loaded again, the session is dated 1 January 1970. *)
Lemma save_load_invalid_date :
  let undated :=
    {| sid := lit "session_1700000000000"; title := lit "New Trip Plan"; messages := [];
       createdAt := InvalidDate; updatedAt := Instant 1700000000000 |} in
  let found :=
    Doc (JArr [JObj [(lit "id", JStr (lit "session_1700000000000"));
                     (lit "title", JStr (lit "New Trip Plan"));
                     (lit "messages", JArr []);
                     (lit "updatedAt", JStr (lit "2023-11-14T22:13:20.000Z"))]]) in
  sessions (startup (Some alice) {[ sessions_key (Some alice) := found ]}) = [undated]
  /\ saveSessions (Some alice) [undated] ∅ !! sessions_key (Some alice)
     = Some (Doc (JArr [JObj [(lit "id", JStr (lit "session_1700000000000"));
                              (lit "title", JStr (lit "New Trip Plan"));
                              (lit "messages", JArr []);
                              (lit "createdAt", JNull);
                              (lit "updatedAt", JStr (lit "2023-11-14T22:13:20.000Z"))]]))
  /\ sessions (startup (Some alice) (saveSessions (Some alice) [undated] ∅))
     = [ {| sid := lit "session_1700000000000"; title := lit "New Trip Plan";
            messages := []; createdAt := Instant 0;
            updatedAt := Instant 1700000000000 |} ]
  /\ sessions (startup (Some alice) (saveSessions (Some alice) [undated] ∅)) <> [undated].
Proof.
  cbv zeta.
  split; [vm_compute; reflexivity|].
  split; [vm_compute; reflexivity|].
  assert (E : sessions (startup (Some alice)
                (saveSessions (Some alice)
                   [ {| sid := lit "session_1700000000000"; title := lit "New Trip Plan";
                        messages := []; createdAt := InvalidDate;
                        updatedAt := Instant 1700000000000 |} ] ∅))
              = [ {| sid := lit "session_1700000000000"; title := lit "New Trip Plan";
                     messages := []; createdAt := Instant 0;
                     updatedAt := Instant 1700000000000 |} ])
    by (vm_compute; reflexivity).
  split; [exact E|]. rewrite E. discriminate.
Qed.

(** *** The collections the manager builds

    Every date the handlers write is a reading of the clock, so the
    collections they build are within the reach of the round trip above. *)

Lemma valid_replace_session target new ss :
  valid_session new = true ->
  Forall (fun s => valid_session s = true) ss ->
  Forall (fun s => valid_session s = true) (replace_session target new ss).
Proof.
  intros Hn Hss. unfold replace_session. apply Forall_fmap.
  eapply Forall_impl; [exact Hss|]. intros s Hs. cbn.
  destruct (decide (sid s = target)); assumption.
Qed.

Lemma valid_append s m t :
  valid_session s = true -> validDate (timestamp m) = true -> inRange t = true ->
  forall i ti,
    valid_session {| sid := i; title := ti; messages := messages s ++ [m];
                     createdAt := createdAt s; updatedAt := Instant t |} = true.
Proof.
  unfold valid_session. intros Hs Hm Ht i ti. cbn [createdAt updatedAt messages validDate].
  apply andb_true_iff in Hs. destruct Hs as [Hs Hms].
  apply andb_true_iff in Hs. destruct Hs as [Hc _].
  rewrite Hc, Ht, forallb_app, Hms. cbn. unfold valid_message. rewrite Hm. reflexivity.
Qed.

Lemma valid_env_readings env :
  valid_env env = true ->
  inRange (now env 0) = true /\ inRange (now env 1) = true /\ inRange (now env 2) = true.
Proof.
  unfold valid_env. intros He.
  apply andb_true_iff in He. destruct He as [He H2].
  apply andb_true_iff in He. destruct He as [H0 H1]. auto.
Qed.

Lemma createNewSession_valid env st :
  valid_env env = true -> valid_state st -> valid_state (createNewSession env st).
Proof.
  intros He [Hss Hcur]. apply valid_env_readings in He. destruct He as (_ & H1 & H2).
  assert (Hnew : valid_session
                   {| sid := lit "session_" ++ lit (pretty (now env 0));
                      title := lit "New Trip Plan";
                      messages := []; createdAt := Instant (now env 1);
                      updatedAt := Instant (now env 2) |} = true).
  { unfold valid_session. cbn. rewrite H1, H2. reflexivity. }
  split; cbn; [constructor; assumption|intros c [= <-]; exact Hnew].
Qed.

Section WithCaseMapping.
Context `{CaseMapping}.

Lemma run_keeps_valid_dates op st :
  valid_op op = true -> valid_state st -> valid_state (run op st).
Proof.
  intros Hop Hst. pose proof Hst as [Hss Hcur].
  destruct op as [env|sessionId|env env' text r|sessionId|env];
    cbn [run valid_op] in *.
  - apply createNewSession_valid; assumption.
  - unfold selectSession. destruct (List.find _ _) as [session|] eqn:E; [|exact Hst].
    split; cbn; [exact Hss|]. intros c [= <-].
    apply find_some in E. destruct E as [Hin _].
    rewrite Forall_forall in Hss. apply Hss, list_elem_of_In, Hin.
  - apply andb_true_iff in Hop. destruct Hop as [He He'].
    unfold sendMessage, sendMessage_begin.
    destruct (currentSession st) as [current|] eqn:Ec;
      [|apply createNewSession_valid; assumption].
    apply valid_env_readings in He, He'.
    destruct He as (_ & H1 & H2). destruct He' as (_ & H1' & H2').
    pose proof (Hcur current eq_refl) as Hc.
    set (updated := {| sid := sid current; title := _;
                       messages := messages current ++ [_];
                       createdAt := createdAt current; updatedAt := Instant (now env 2) |}).
    assert (Hu : valid_session updated = true)
      by (apply valid_append; [exact Hc|exact H1|exact H2]).
    destruct r; cbn; try (split; cbn; [exact Hss|intros c [= <-]; exact Hc]).
    assert (Hf : valid_session
                   {| sid := sid updated; title := title updated;
                      messages := messages updated
                                  ++ [{| mid := lit "msg_" ++ lit (pretty (now env' 0 + 1)%Z);
                                         content := response; role := assistant_role;
                                         timestamp := Instant (now env' 1);
                                         typing := None |}];
                      createdAt := createdAt updated;
                      updatedAt := Instant (now env' 2) |} = true)
      by (apply valid_append; [exact Hu|exact H1'|exact H2']).
    split; cbn.
    + apply valid_replace_session; [exact Hf|exact Hss].
    + intros c [= <-]. exact Hf.
  - assert (Hf : Forall (fun s => valid_session s = true)
                   (filter (fun s => sid s ≠ sessionId) (sessions st)))
      by (rewrite Forall_forall in Hss; apply Forall_forall; intros s Hs;
          apply list_elem_of_filter in Hs; apply Hss, Hs).
    unfold deleteSession. destruct (currentSession st) as [current|] eqn:Ec.
    + destruct (decide (sid current = sessionId)); split; cbn; try exact Hf.
      * intros c Hc. rewrite Forall_forall in Hf. apply Hf.
        apply head_Some_elem_of. exact Hc.
      * rewrite Ec. intros c [= <-]. apply Hcur. reflexivity.
    + split; cbn; [exact Hf|]. rewrite Ec. discriminate.
  - unfold clearCurrentChat. destruct (currentSession st) as [current|] eqn:Ec;
      [|exact Hst].
    apply valid_env_readings in Hop. destruct Hop as (H0 & _).
    pose proof (Hcur current eq_refl) as Hc.
    assert (Hclr : valid_session
                     {| sid := sid current; title := lit "New Trip Plan"; messages := [];
                        createdAt := createdAt current;
                        updatedAt := Instant (now env 0) |} = true).
    { unfold valid_session in *. cbn. rewrite H0.
      apply andb_true_iff in Hc. destruct Hc as [Hc _].
      apply andb_true_iff in Hc. destruct Hc as [Hc _]. rewrite Hc. reflexivity. }
    split; cbn.
    + apply valid_replace_session; [exact Hclr|exact Hss].
    + intros c [= <-]. exact Hclr.
Qed.

End WithCaseMapping.

(** The sample collection saved for Alice and loaded at startup. *)
Lemma save_load_roundtrip_witness :
  let st := startup (Some alice) (saveSessions (Some alice) [fresh; kyoto] ∅) in
  sessions st = [fresh; kyoto] /\ currentSession st = Some fresh.
Proof.
  destruct (save_load_roundtrip alice [fresh; kyoto] ∅) as (Hw & _).
  destruct (Hw eq_refl) as (_ & H1 & H2). split; [exact H1|exact H2].
Defined.

End PersistenceFacts.


(** ** Reloads of the page *)
Module ChatRunsFacts.
Import Js JsFacts JsDate Json Chat ChatFacts PersistenceFacts ChatRuns.

Lemma parse_saved u ss m :
  Forall (fun s => valid_session s = true) ss ->
  parseSessions (saveSessions (Some u) ss m !! sessions_key (Some u)) = Some ss.
Proof.
  intros Hv. rewrite parse_saved_reread, (reread_sessions_valid ss Hv). reflexivity.
Qed.

Lemma startup_saved u ss m :
  Forall (fun s => valid_session s = true) ss ->
  sessions (startup (Some u) (saveSessions (Some u) ss m)) = ss.
Proof.
  intros Hv. unfold startup, onUser, loadSessions.
  cbn [initial user localStorage currentSession].
  rewrite (parse_saved u ss m Hv).
  unfold saveSessions. rewrite lookup_insert_eq. cbn [present JSON_stringify].
  destruct ss; reflexivity.
Qed.

Lemma startup_current u m :
  currentSession (startup u m) = head (sessions (startup u m)).
Proof.
  unfold startup, onUser, loadSessions. cbn [initial user localStorage currentSession].
  destruct u as [u|]; [|reflexivity].
  destruct (present _); [|reflexivity].
  destruct (parseSessions _) as [[|first rest]|]; reflexivity.
Qed.

Lemma reload_startup u m : reload (startup u m) = startup u m.
Proof.
  unfold reload.
  assert (E : user (startup u m) = u /\ localStorage (startup u m) = m).
  { unfold startup, onUser, loadSessions. cbn [initial user localStorage currentSession].
    destruct u as [u|]; [|split; reflexivity].
    destruct (present _); [|split; reflexivity].
    destruct (parseSessions _) as [[|first rest]|]; split; reflexivity. }
  destruct E as [-> ->]. reflexivity.
Qed.

Section WithCaseMapping.
Context `{CaseMapping}.

(** *** What an operation writes *)

Lemma run_user op st : user (run op st) = user st.
Proof.
  destruct op; cbn.
  - reflexivity.
  - unfold selectSession. destruct (List.find _ _); reflexivity.
  - unfold sendMessage, sendMessage_begin.
    destruct (currentSession st); [destruct r|]; reflexivity.
  - unfold deleteSession. destruct (currentSession st) as [c|]; [|reflexivity].
    destruct (decide (sid c = sessionId)); reflexivity.
  - unfold clearCurrentChat. destruct (currentSession st); reflexivity.
Qed.

(** An operation either leaves the collection and the storage as they are,
    or saves the collection it leaves. *)
Lemma run_saves op st :
  (sessions (run op st) = sessions st /\ localStorage (run op st) = localStorage st)
  \/ localStorage (run op st)
     = saveSessions (user st) (sessions (run op st)) (localStorage st).
Proof.
  destruct op; cbn.
  - right. reflexivity.
  - left. unfold selectSession. destruct (List.find _ _); split; reflexivity.
  - unfold sendMessage, sendMessage_begin.
    destruct (currentSession st); [|right; reflexivity].
    destruct r; try (left; split; reflexivity). right. reflexivity.
  - right. unfold deleteSession. destruct (currentSession st) as [c|]; [|reflexivity].
    destruct (decide (sid c = sessionId)); reflexivity.
  - unfold clearCurrentChat. destruct (currentSession st);
      [right; reflexivity|left; split; reflexivity].
Qed.

(** One operation keeps the storage in step with the collection. *)
Lemma run_in_step op st u :
  user st = Some u -> valid_state st -> valid_op op = true ->
  sessions (reload st) = sessions st ->
  sessions (reload (run op st)) = sessions (run op st).
Proof.
  intros Hu Hv Hop Hs. unfold reload in *. rewrite run_user, Hu in *.
  destruct (run_saves op st) as [[E1 E2]|E].
  - rewrite E1, E2. exact Hs.
  - rewrite E, Hu. apply startup_saved.
    apply (run_keeps_valid_dates op st Hop Hv).
Qed.

(** X1. From a start over a storage whose collection has valid dates, after
    any operations with clock readings in range, a reload of the page shows
    the collection that is in memory, with its first session as the current
    one. *)
Theorem reload_shows_the_collection (u : User) (m : gmap str stored)
    (ops : list Op) :
  valid_state (startup (Some u) m) ->
  Forall (fun op => valid_op op = true) ops ->
  let st := runs ops (startup (Some u) m) in
  sessions (reload st) = sessions st
  /\ currentSession (reload st) = head (sessions st).
Proof.
  intros Hv Hops. cbv zeta.
  assert (J : user (runs ops (startup (Some u) m)) = Some u
              /\ valid_state (runs ops (startup (Some u) m))
              /\ sessions (reload (runs ops (startup (Some u) m)))
                 = sessions (runs ops (startup (Some u) m))).
  { unfold runs.
    assert (J0 : user (startup (Some u) m) = Some u
                 /\ valid_state (startup (Some u) m)
                 /\ sessions (reload (startup (Some u) m)) = sessions (startup (Some u) m)).
    { split; [|split; [exact Hv|rewrite reload_startup; reflexivity]].
      unfold startup, onUser, loadSessions. cbn [initial user localStorage currentSession].
      destruct (present _); [|reflexivity].
      destruct (parseSessions _) as [[|first rest]|]; reflexivity. }
    revert J0. generalize (startup (Some u) m).
    induction Hops as [|op ops Hop _ IH]; intros st J0; [exact J0|].
    cbn [fold_left]. apply IH. destruct J0 as (Hu & Hvs & Hs).
    split; [rewrite run_user; exact Hu|]. split.
    - apply run_keeps_valid_dates; assumption.
    - eapply run_in_step; eassumption. }
  destruct J as (_ & _ & Hs). split; [exact Hs|].
  unfold reload in *. rewrite startup_current, Hs. reflexivity.
Qed.

End WithCaseMapping.

(** Samples, evaluated with the mapping of the ASCII letters: their texts are
    ASCII. *)
Section Samples.
#[local] Existing Instance ascii_case_mapping.

Lemma reload_shows_the_collection_witness :
  let st := runs [CreateNewSession noon; DeleteSession (sid kyoto)]
              (startup (Some alice) (saveSessions (Some alice) [fresh; kyoto] ∅)) in
  sessions (reload st) = sessions st.
Proof.
  assert (Hv : valid_state (startup (Some alice)
                              (saveSessions (Some alice) [fresh; kyoto] ∅))).
  { split.
    - rewrite startup_saved; repeat constructor.
    - rewrite startup_current, startup_saved by repeat constructor.
      intros c [= <-]. reflexivity. }
  apply (reload_shows_the_collection alice _
           [CreateNewSession noon; DeleteSession (sid kyoto)] Hv).
  repeat constructor.
Defined.

End Samples.

End ChatRunsFacts.

(** ** The ids of the collection *)
Module ChatIdsFacts.
Import Js JsFacts JsDate Json Title Chat ChatFacts PersistenceFacts ChatRuns ChatRunsFacts.

Lemma replace_session_ids target new (ss : list ChatSession) :
  sid new = target -> sid <$> replace_session target new ss = sid <$> ss.
Proof.
  intros Hn. unfold replace_session. rewrite <- list_fmap_compose.
  apply list_fmap_ext. intros _ s _. cbn.
  destruct (decide (sid s = target)); congruence.
Qed.


Section WithCaseMapping.
Context `{CaseMapping}.



End WithCaseMapping.

(** Samples, evaluated with the mapping of the ASCII letters: their texts are
    ASCII. *)
Section Samples.
#[local] Existing Instance ascii_case_mapping.


End Samples.

End ChatIdsFacts.

(** ** Deletion and selection *)
Module ChatOpsFacts.
Import Js JsFacts JsDate Json Title Chat ChatFacts PersistenceFacts.
Import ChatRuns ChatRunsFacts ChatIdsFacts Components.

(** *** Deletion and selection among distinct ids *)

Lemma filter_out_one (i : str) (l1 l2 : list ChatSession) (s : ChatSession) :
  sid s = i -> NoDup (sid <$> (l1 ++ s :: l2)) ->
  filter (fun x => sid x ≠ i) (l1 ++ s :: l2) = l1 ++ l2.
Proof.
  intros Hs Hn. rewrite fmap_app, fmap_cons in Hn.
  apply NoDup_app in Hn. destruct Hn as (_ & H1 & H2).
  apply NoDup_cons in H2. destruct H2 as [H2 _].
  assert (K : forall l : list ChatSession,
             sid s ∉ sid <$> l -> filter (fun x => sid x ≠ i) l = l).
  { induction l as [|x l IH]; intros Hx; [reflexivity|].
    rewrite fmap_cons in Hx. apply not_elem_of_cons in Hx. destruct Hx as [Hx1 Hx2].
    rewrite filter_cons_True by congruence. rewrite IH by exact Hx2. reflexivity. }
  rewrite filter_app, filter_cons_False by (intros E; apply E; exact Hs).
  rewrite !K; [reflexivity|exact H2|].
  intros Hin. apply (H1 (sid s)); [exact Hin|left].
Qed.

Lemma same_id_same_session (l : list ChatSession) (x y : ChatSession) :
  NoDup (sid <$> l) -> x ∈ l -> y ∈ l -> sid x = sid y -> x = y.
Proof.
  induction l as [|a l IH]; intros Hn Hx Hy E.
  - apply elem_of_nil in Hx. contradiction.
  - rewrite fmap_cons in Hn. apply NoDup_cons in Hn. destruct Hn as [Ha Hn].
    apply elem_of_cons in Hx, Hy.
    destruct Hx as [->|Hx], Hy as [->|Hy].
    + reflexivity.
    + exfalso. apply Ha. rewrite E. apply list_elem_of_fmap. eauto.
    + exfalso. apply Ha. rewrite <- E. apply list_elem_of_fmap. eauto.
    + apply IH; assumption.
Qed.

(** [find] returns the first element that passes the test. *)
Lemma find_first {A} (f : A -> bool) (l1 : list A) (x : A) (l2 : list A) :
  Forall (fun y => f y = false) l1 -> f x = true ->
  List.find f (l1 ++ x :: l2) = Some x.
Proof.
  intros Hl Hx. induction Hl as [|y l1 Hy _ IH]; cbn.
  - rewrite Hx. reflexivity.
  - rewrite Hy. exact IH.
Qed.

Lemma find_where {A} (f : A -> bool) (l : list A) (x : A) :
  List.find f l = Some x ->
  exists l1 l2, l = l1 ++ x :: l2 /\ Forall (fun y => f y = false) l1 /\ f x = true.
Proof.
  induction l as [|a l IH]; cbn; [discriminate|].
  destruct (f a) eqn:Ha.
  - intros [= ->]. exists [], l. repeat split; [constructor|exact Ha].
  - intros Hf. destruct (IH Hf) as (l1 & l2 & -> & Hl & Hx).
    exists (a :: l1), l2. repeat split; [constructor; assumption|exact Hx].
Qed.

(** X3. Among sessions with ids of their own, deleting the id of a session
    of the collection takes out that session alone: the sessions before it
    and after it stay, in their order, and the collection is shorter by
    one. Deleting an id no session has leaves the collection as it is. *)
Theorem deleteSession_takes_one (st : State) (l1 l2 : list ChatSession)
    (s : ChatSession) :
  NoDup (session_ids st) ->
  sessions st = l1 ++ s :: l2 ->
  sessions (deleteSession (sid s) st) = l1 ++ l2
  /\ List.length (sessions (deleteSession (sid s) st)) + 1 = List.length (sessions st)
  /\ forall i, i ∉ session_ids st -> sessions (deleteSession i st) = sessions st.
Proof.
  intros Hn E.
  assert (Hs : forall i, sessions (deleteSession i st)
                         = filter (fun x => sid x ≠ i) (sessions st)).
  { intros i. unfold deleteSession. destruct (currentSession st) as [c|]; [|reflexivity].
    destruct (decide (sid c = i)); reflexivity. }
  unfold session_ids in *.
  assert (Hd : sessions (deleteSession (sid s) st) = l1 ++ l2).
  { rewrite Hs, E. apply filter_out_one; [reflexivity|]. rewrite <- E. exact Hn. }
  split; [exact Hd|split].
  - rewrite Hd, E, !length_app. cbn. lia.
  - intros i Hi. rewrite Hs.
    clear -Hi. induction (sessions st) as [|x l IH]; [reflexivity|].
    rewrite fmap_cons in Hi. apply not_elem_of_cons in Hi. destruct Hi as [Hx Hl].
    rewrite filter_cons_True by congruence. rewrite IH by exact Hl. reflexivity.
Qed.

Lemma deleteSession_takes_one_witness :
  sessions (deleteSession (sid kyoto) (sample (Some alice))) = [fresh].
Proof.
  apply (deleteSession_takes_one (sample (Some alice)) [fresh] [] kyoto).
  - apply (bool_decide_unpack _). vm_compute. exact I.
  - reflexivity.
Defined.

(** X4. Selecting an id no session has changes nothing at all. Selecting the
    id of a session makes the first session with that id the current one:
    the session before which no session of the collection has the id. Among
    ids of their own that is the one session with the id. The collection,
    the storage and the flags are never touched. *)
Theorem selectSession_correct (i : str) (st : State) :
  (i ∉ session_ids st -> selectSession i st = st)
  /\ (i ∈ session_ids st ->
        exists l1 s l2,
          sessions st = l1 ++ s :: l2 /\ Forall (fun x => sid x ≠ i) l1 /\ sid s = i
          /\ currentSession (selectSession i st) = Some s)
  /\ (forall l1 s l2,
        sessions st = l1 ++ s :: l2 -> Forall (fun x => sid x ≠ i) l1 -> sid s = i ->
        currentSession (selectSession i st) = Some s)
  /\ (forall s, s ∈ sessions st -> sid s = i -> NoDup (session_ids st) ->
        currentSession (selectSession i st) = Some s)
  /\ sessions (selectSession i st) = sessions st
  /\ localStorage (selectSession i st) = localStorage st
  /\ loading (selectSession i st) = loading st
  /\ isTyping (selectSession i st) = isTyping st.
Proof.
  unfold selectSession, session_ids.
  split; [|split; [|split; [|split]]].
  - intros Hi. destruct (List.find _ _) as [s|] eqn:E; [|reflexivity].
    apply find_some in E. destruct E as [Hin Hid].
    apply bool_decide_eq_true in Hid. exfalso. apply Hi.
    apply list_elem_of_fmap. exists s. split; [congruence|apply list_elem_of_In, Hin].
  - intros Hi. apply list_elem_of_fmap in Hi. destruct Hi as (s0 & Hid0 & Hin0).
    destruct (List.find _ _) as [s|] eqn:E.
    + apply find_where in E. destruct E as (l1 & l2 & E & Hl & Hs).
      exists l1, s, l2. split; [exact E|]. split; [|split; [|reflexivity]].
      * eapply Forall_impl; [exact Hl|]. intros x Hx.
        apply bool_decide_eq_false in Hx. exact Hx.
      * apply bool_decide_eq_true in Hs. exact Hs.
    + exfalso. apply list_elem_of_In in Hin0.
      pose proof (find_none _ _ E s0 Hin0) as F. cbn in F.
      apply bool_decide_eq_false in F. congruence.
  - intros l1 s l2 E Hl Hs. rewrite E, find_first; [reflexivity| |].
    + eapply Forall_impl; [exact Hl|]. intros x Hx.
      apply bool_decide_eq_false. exact Hx.
    + apply bool_decide_eq_true. exact Hs.
  - intros s Hin Hid Hn. destruct (List.find _ _) as [s'|] eqn:E.
    + apply find_some in E. destruct E as [Hin' Hid'].
      apply bool_decide_eq_true in Hid'. apply list_elem_of_In in Hin'.
      cbn. f_equal.
      apply (same_id_same_session (sessions st)); (assumption || congruence).
    + exfalso. apply list_elem_of_In in Hin.
      pose proof (find_none _ _ E s Hin) as F. cbn in F.
      apply bool_decide_eq_false in F. contradiction.
  - destruct (List.find _ _); repeat split; reflexivity.
Qed.

(** Two sessions under one id: the first of them is selected. *)
Lemma selectSession_correct_witness :
  let twin := {| sid := sid kyoto; title := lit "Trip to Nara"; messages := [];
                 createdAt := createdAt kyoto; updatedAt := updatedAt kyoto |} in
  currentSession (selectSession (sid kyoto) (setSessions [fresh; kyoto; twin]
                                               (sample (Some alice))))
  = Some kyoto
  /\ selectSession (lit "session_0") (sample (Some alice)) = sample (Some alice).
Proof.
  cbv zeta. split.
  - destruct (selectSession_correct (sid kyoto)
                (setSessions [fresh; kyoto;
                              {| sid := sid kyoto; title := lit "Trip to Nara";
                                 messages := []; createdAt := createdAt kyoto;
                                 updatedAt := updatedAt kyoto |}]
                   (sample (Some alice)))) as (_ & _ & Hfirst & _).
    eapply (Hfirst [fresh] kyoto); [reflexivity| |reflexivity].
    constructor; [discriminate|constructor].
  - destruct (selectSession_correct (lit "session_0") (sample (Some alice))) as (Hnone & _).
    apply Hnone. apply (bool_decide_unpack _). vm_compute. exact I.
Defined.

End ChatOpsFacts.

(** ** Answered sends, clearing, loading and the keys of the storage *)
Module ChatMoreFacts.
Import Js JsFacts JsDate Json Title Chat ChatFacts PersistenceFacts.
Import ChatRuns ChatRunsFacts ChatIdsFacts ChatOpsFacts Components.

(** *** A send that is answered *)

Lemma replace_session_elem target new (ss : list ChatSession) s :
  s ∈ replace_session target new ss -> s = new \/ (s ∈ ss /\ sid s ≠ target).
Proof.
  unfold replace_session. intros Hs. apply list_elem_of_fmap in Hs.
  destruct Hs as (x & -> & Hx). destruct (decide (sid x = target)); auto.
Qed.

Lemma replace_session_absent target new (ss : list ChatSession) :
  target ∉ sid <$> ss -> replace_session target new ss = ss.
Proof.
  intros Ht. unfold replace_session. induction ss as [|x ss IH]; [reflexivity|].
  rewrite fmap_cons in Ht. apply not_elem_of_cons in Ht. destruct Ht as [Hx Hs].
  rewrite !fmap_cons, IH by exact Hs.
  destruct (decide (sid x = target)); [congruence|reflexivity].
Qed.

Lemma sessions_key_inj u v : sessions_key (Some u) = sessions_key (Some v) -> uid u = uid v.
Proof. unfold sessions_key. apply app_inv_head. Qed.

Section WithCaseMapping.
Context `{CaseMapping}.

(** X5. A send that is answered appends the user message and then the reply
    to the current session, in that order and after the messages it had; the
    title is generated from the text when the session had no message and is
    kept otherwise; the request carries the messages the session had,
    without the new one. When the
    current session is in the collection, the session with the reply is in
    the collection and, for a user and with dates in range, in what a reload
    of the page shows. When no session of the collection has its id, the
    collection is left as it was. *)
Theorem answered_send (env env' : Env) (text response : str) (st : State)
    (current : ChatSession) :
  currentSession st = Some current ->
  let st' := sendMessage env env' text (Reply response) st in
  exists final question answer,
    currentSession st' = Some final
    /\ messages final = messages current ++ [question; answer]
    /\ content question = text /\ role question = user_role
    /\ content answer = response /\ role answer = assistant_role
    /\ sid final = sid current
    /\ title final = match messages current with
                     | [] => generateSessionTitle (today env) text
                     | _ :: _ => title current
                     end
    /\ (exists q, requests st' = requests st ++ [q]
          /\ req_message q = text /\ req_history q = history current)
    /\ (sid current ∈ session_ids st -> final ∈ sessions st')
    /\ (forall u, sid current ∈ session_ids st -> user st = Some u ->
          valid_state st -> valid_env env = true -> valid_env env' = true ->
          final ∈ sessions (reload st'))
    /\ (sid current ∉ session_ids st -> sessions st' = sessions st).
Proof.
  intros Hc st'.
  assert (Hrun : st' = run (SendMessage env env' text (Reply response)) st) by reflexivity.
  assert (Hfinal : exists final question answer,
            currentSession st' = Some final
            /\ messages final = messages current ++ [question; answer]
            /\ content question = text /\ role question = user_role
            /\ content answer = response /\ role answer = assistant_role
            /\ sid final = sid current
            /\ title final = match messages current with
                             | [] => generateSessionTitle (today env) text
                             | _ :: _ => title current
                             end
            /\ (exists q, requests st' = requests st ++ [q]
                  /\ req_message q = text /\ req_history q = history current)
            /\ sessions st' = replace_session (sid current) final (sessions st)
            /\ localStorage st'
               = saveSessions (user st) (sessions st') (localStorage st)).
  { subst st'. unfold sendMessage, sendMessage_begin. rewrite Hc.
    eexists _, _, _. split; [reflexivity|].
    split; [cbn; rewrite <- List.app_assoc; reflexivity|].
    do 6 (split; [reflexivity|]).
    split; [eexists; repeat split; reflexivity|].
    split; reflexivity. }
  destruct Hfinal as (final & question & answer & H1 & H2 & H3 & H4 & H5 & H6 & H7
                      & Ht & H8 & Hss & Hls).
  exists final, question, answer.
  do 9 (split; [assumption|]).
  assert (Hin : sid current ∈ session_ids st -> final ∈ sessions st').
  { intros Hm. unfold session_ids in Hm. apply list_elem_of_fmap in Hm.
    destruct Hm as (s & Hs & Hin). rewrite Hss.
    eapply elem_of_replace_session; eauto. }
  split; [exact Hin|split].
  - intros u Hm Hu Hv He He'.
    assert (V : valid_state st').
    { rewrite Hrun. apply run_keeps_valid_dates; [|exact Hv].
      cbn [valid_op]. rewrite He, He'. reflexivity. }
    unfold reload. rewrite Hrun, run_user, <- Hrun, Hls, Hu.
    rewrite startup_saved by exact (proj1 V). apply Hin, Hm.
  - intros Hm. rewrite Hss. apply replace_session_absent. exact Hm.
Qed.

(** *** One user's operations and the storage of the others *)

(** X8. No operation touches a key of localStorage other than the key of
    the active user's collection; so the stored collection of a user with
    another id is as it was after any operation. *)
Theorem other_keys_untouched (op : Op) (st : State) :
  (forall k, k <> sessions_key (user st) ->
     localStorage (run op st) !! k = localStorage st !! k)
  /\ (forall u v, user st = Some u -> uid v <> uid u ->
        localStorage (run op st) !! sessions_key (Some v)
        = localStorage st !! sessions_key (Some v)).
Proof.
  assert (Hk : forall k, k <> sessions_key (user st) ->
                localStorage (run op st) !! k = localStorage st !! k).
  { intros k Hk. destruct (run_saves op st) as [[_ E]|E]; rewrite E; [reflexivity|].
    apply saveSessions_other. exact Hk. }
  split; [exact Hk|].
  intros u v Hu Hne. apply Hk. rewrite Hu. intros E.
  apply sessions_key_inj in E. contradiction.
Qed.

End WithCaseMapping.

(** *** Clearing the chat *)

(** X6. After the header's clear action the chat area shows the welcome
    screen. With no current session, or one without messages, the action
    changes nothing (the session is not even marked as updated); otherwise
    the current session keeps its id and creation date, loses its messages
    and gets the placeholder title, every id of the collection stays in its
    place, every session with another id is untouched, and the result is
    handed to the persistence write. *)
Theorem handleClearChat_correct (env : Env) (st : State) :
  let st' := handleClearChat env st in
  showsWelcome st' = true
  /\ (showsWelcome st = true -> st' = st)
  /\ (forall current, currentSession st = Some current -> messages current <> [] ->
        exists cleared,
          currentSession st' = Some cleared
          /\ sid cleared = sid current /\ createdAt cleared = createdAt current
          /\ messages cleared = [] /\ title cleared = lit "New Trip Plan"
          /\ session_ids st' = session_ids st
          /\ (forall s, s ∈ sessions st' ->
                s = cleared \/ (s ∈ sessions st /\ sid s ≠ sid current))
          /\ localStorage st'
             = saveSessions (user st) (sessions st') (localStorage st)).
Proof.
  cbv zeta. unfold handleClearChat, showsWelcome.
  destruct (currentSession st) as [c|] eqn:Hc.
  - destruct (messages c) as [|m ms] eqn:Hm.
    + rewrite Hc, Hm. split; [reflexivity|]. split; [reflexivity|].
      intros current [= <-] Hne. contradiction.
    + unfold clearCurrentChat. rewrite Hc. cbn.
      split; [reflexivity|]. split; [discriminate|].
      intros current [= <-] _. eexists. split; [reflexivity|].
      do 4 (split; [reflexivity|]). split; [|split; [|reflexivity]].
      * unfold session_ids. cbn. apply replace_session_ids. reflexivity.
      * intros s Hs. apply replace_session_elem in Hs. exact Hs.
  - rewrite Hc. split; [reflexivity|]. split; [reflexivity|]. discriminate.
Qed.

Lemma handleClearChat_correct_witness :
  let st := selectSession (sid kyoto) (sample (Some alice)) in
  exists cleared, currentSession (handleClearChat noon st) = Some cleared
    /\ messages cleared = [] /\ sid cleared = sid kyoto.
Proof.
  destruct (handleClearChat_correct noon (selectSession (sid kyoto) (sample (Some alice))))
    as (_ & _ & Hw).
  destruct (Hw kyoto eq_refl) as (cleared & H1 & H2 & _ & H4 & _); [discriminate|].
  exists cleared. auto.
Defined.

(** *** Loading *)

(** X7. The load never writes the storage and never replaces a current
    session that is already set. With no stored collection, with an empty
    text, or with a text that is not JSON, it changes nothing: the state
    stays as it was and the text stays in the storage. *)
Theorem loadSessions_edges (st : State) :
  localStorage (loadSessions st) = localStorage st
  /\ (forall current, currentSession st = Some current ->
        currentSession (loadSessions st) = Some current)
  /\ (localStorage st !! sessions_key (user st) = None -> loadSessions st = st)
  /\ (forall text, localStorage st !! sessions_key (user st) = Some (NotJson text) ->
        loadSessions st = st)
  /\ (user st = None -> onUser st = st).
Proof.
  unfold loadSessions. split; [|split; [|split; [|split]]].
  - destruct (present _); [|reflexivity].
    destruct (parseSessions _) as [[|first rest]|]; [reflexivity| |reflexivity].
    destruct (currentSession st); reflexivity.
  - intros c Hc. destruct (present _); [|exact Hc].
    destruct (parseSessions _) as [[|first rest]|]; rewrite ?Hc; cbn; rewrite ?Hc; reflexivity.
  - intros ->. reflexivity.
  - intros text ->. cbn. destruct (truthy text); reflexivity.
  - intros Hu. unfold onUser. rewrite Hu. reflexivity.
Qed.

Lemma loadSessions_edges_witness :
  let st := setStorage {[ sessions_key (Some alice) := NotJson (lit "[{oops") ]}
              (sample (Some alice)) in
  loadSessions st = st.
Proof.
  destruct (loadSessions_edges
              (setStorage {[ sessions_key (Some alice) := NotJson (lit "[{oops") ]}
                 (sample (Some alice)))) as (_ & _ & _ & Hw & _).
  apply (Hw (lit "[{oops")). reflexivity.
Defined.

(** Samples, evaluated with the mapping of the ASCII letters: their texts are
    ASCII. *)
Section Samples.
#[local] Existing Instance ascii_case_mapping.

Lemma answered_send_witness :
  let st' := sendMessage noon later (lit "Kyoto in spring")
               (Reply (lit "Here is your itinerary")) (sample (Some alice)) in
  exists final, currentSession st' = Some final
    /\ (content <$> messages final) = [lit "Kyoto in spring"; lit "Here is your itinerary"]
    /\ final ∈ sessions (reload st').
Proof.
  destruct (answered_send noon later (lit "Kyoto in spring") (lit "Here is your itinerary")
              (sample (Some alice)) fresh eq_refl)
    as (final & q & a & H1 & H2 & H3 & _ & H5 & _ & _ & _ & _ & _ & Hr & _).
  exists final. split; [exact H1|split].
  - rewrite H2. cbn. rewrite H3, H5. reflexivity.
  - apply (Hr alice); try reflexivity.
    + apply (bool_decide_unpack _). vm_compute. exact I.
    + split; [repeat constructor|intros c [= <-]; reflexivity].
Defined.

Lemma other_keys_untouched_witness :
  let st := setStorage {[ lit "trip_planner_sessions_u2" := Doc (sessionsJSON [kyoto]) ]}
              (sample (Some alice)) in
  localStorage (run (DeleteSession (sid kyoto)) st) !! lit "trip_planner_sessions_u2"
  = Some (Doc (sessionsJSON [kyoto])).
Proof.
  destruct (other_keys_untouched (DeleteSession (sid kyoto))
              (setStorage {[ lit "trip_planner_sessions_u2" := Doc (sessionsJSON [kyoto]) ]}
                 (sample (Some alice)))) as [Hw _].
  cbv zeta. etransitivity; [apply Hw; discriminate|reflexivity].
Defined.

End Samples.

End ChatMoreFacts.


(** ** Trimming *)
Module ComponentsFacts.
Import Js JsFacts JsDate Json Title Chat ChatFacts SearchFacts PersistenceFacts.
Import ChatRuns ChatRunsFacts ChatIdsFacts ChatOpsFacts ChatMoreFacts Components.

Lemma trimStart_split s :
  exists pre, s = pre ++ trimStart s /\ forallb is_white_space pre = true.
Proof.
  induction s as [|c r IH]; [exists []; split; reflexivity|].
  cbn [trimStart]. destruct (is_white_space c) eqn:E.
  - destruct IH as (pre & Hr & Hp). exists (c :: pre). split.
    + rewrite <- app_comm_cons, <- Hr. reflexivity.
    + cbn. rewrite E, Hp. reflexivity.
  - exists []. split; reflexivity.
Qed.

Lemma trimStart_solid s : trimStart s = [] \/ starts_solid (trimStart s).
Proof.
  induction s as [|c r IH]; [left; reflexivity|].
  cbn [trimStart]. destruct (is_white_space c) eqn:E; [exact IH|right; exact E].
Qed.

Lemma trimStart_of_solid s : starts_solid s -> trimStart s = s.
Proof. destruct s as [|c r]; cbn; [contradiction|]. intros ->. reflexivity. Qed.

Lemma trimStart_before_solid x c b :
  is_white_space c = false ->
  exists pre, trimStart (x ++ c :: b) = pre ++ c :: b.
Proof.
  intros Hc. induction x as [|a x IH].
  - exists []. rewrite !app_nil_l. cbn. rewrite Hc. reflexivity.
  - rewrite <- app_comm_cons. cbn [trimStart]. destruct (is_white_space a); [exact IH|].
    exists (a :: x). reflexivity.
Qed.

(** A text that is not blank trims to a text that is not empty, begins and
    ends with a code unit that is no white space, occurs in the text, and
    trims to itself. *)
Lemma trim_solid s :
  blank s = false ->
  trim s <> [] /\ starts_solid (trim s) /\ ends_solid (trim s)
  /\ occurs (trim s) s /\ trim (trim s) = trim s.
Proof.
  intros Hb.
  assert (Hne : trim s <> []).
  { unfold blank in Hb. destruct (trim s); [discriminate|discriminate]. }
  assert (Ht : starts_solid (trimStart s)).
  { destruct (trimStart_solid s) as [E|Hs]; [|exact Hs].
    exfalso. apply Hne. unfold trim, trimEnd. rewrite E. reflexivity. }
  destruct (trimStart s) as [|c t] eqn:Et; [contradiction|]. cbn in Ht.
  assert (Htrim : trim s = rev (trimStart (rev (c :: t)))).
  { unfold trim, trimEnd. rewrite Et. reflexivity. }
  destruct (trimStart_before_solid (rev t) c [] Ht) as (pre & Hpre).
  change (rev t ++ [c]) with (rev (c :: t)) in Hpre.
  assert (Hstart : starts_solid (trim s)).
  { rewrite Htrim, Hpre, rev_app_distr. cbn. exact Ht. }
  assert (Hend : ends_solid (trim s)).
  { unfold ends_solid. rewrite Htrim, rev_involutive.
    destruct (trimStart_solid (rev (c :: t))) as [E|Hs]; [|exact Hs].
    rewrite E in Hpre. destruct pre; discriminate. }
  split; [exact Hne|]. split; [exact Hstart|]. split; [exact Hend|]. split.
  - destruct (trimStart_split s) as (p1 & Hs & _).
    destruct (trimStart_split (rev (c :: t))) as (p2 & Hr & _).
    exists p1, (rev p2).
    rewrite Htrim, <- rev_app_distr, <- Hr, rev_involutive, <- Et. exact Hs.
  - unfold trim at 1, trimEnd. rewrite (trimStart_of_solid _ Hstart).
    rewrite (trimStart_of_solid _ Hend). apply rev_involutive.
Qed.

End ComponentsFacts.

(** ** The message input and the search box *)
Module InputFacts.
Import Js JsFacts JsDate Json Title Chat ChatFacts SearchFacts PersistenceFacts.
Import ChatRuns ChatRunsFacts ChatIdsFacts ChatOpsFacts ChatMoreFacts Components ComponentsFacts.

Lemma filter_sublist_impl {A} (f g : A -> bool) (l : list A) :
  (forall x, f x = true -> g x = true) ->
  sublist (List.filter f l) (List.filter g l).
Proof.
  intros Hfg. induction l as [|a l IH]; cbn; [constructor|].
  destruct (f a) eqn:Ef.
  - rewrite (Hfg a Ef). apply sublist_skip, IH.
  - destruct (g a); [apply sublist_cons|]; exact IH.
Qed.

Lemma forallb_fmap_ext {A} (p : A -> bool) (f : A -> A) (l : list A) :
  (forall x, p (f x) = p x) -> forallb p (f <$> l) = forallb p l.
Proof.
  intros Hp. induction l as [|a l IH]; [reflexivity|]. cbn. rewrite Hp, IH. reflexivity.
Qed.

Section WithCaseMapping.
Context `{CaseMapping}.

(** *** The message input *)

(** X9. The input sends nothing for a blank text (one of white space, as
    [trim] strips it) or while a send is loading, and both the box and the
    manager stay as they are. Otherwise it empties the box and sends the
    trimmed text, which is not empty, begins and ends with a code unit that
    is no white space, and is a part of what was typed. While that send is
    awaited with a current session, a second submit does nothing. *)
Theorem handleSubmit_sends_trimmed (env env' : Env) (r : FetchResult)
    (message : str) (st : State) :
  (blank message = true <-> forallb is_white_space message = true)
  /\ (blank message = true \/ loading st = true ->
        handleSubmit env env' r message st = (message, st))
  /\ (blank message = false -> loading st = false ->
        handleSubmit env env' r message st
        = ([], sendMessage env env' (trim message) r st)
        /\ trim message <> [] /\ starts_solid (trim message)
        /\ ends_solid (trim message) /\ occurs (trim message) message)
  /\ (blank message = false -> loading st = false -> currentSession st <> None ->
        forall env2 env2' r2 message2,
          handleSubmit env2 env2' r2 message2 (handleSubmit_pending env message st).2
          = (message2, (handleSubmit_pending env message st).2)).
Proof.
  unfold handleSubmit, handleSubmit_pending. split; [apply blank_spec|split; [|split]].
  - intros [-> | ->]; [reflexivity|]. rewrite orb_true_r. reflexivity.
  - intros Hb Hl. rewrite Hb, Hl. split; [reflexivity|].
    destruct (trim_solid message Hb) as (H1 & H2 & H3 & H4 & _). auto.
  - intros Hb Hl Hc env2 env2' r2 message2. rewrite Hb, Hl. cbn [orb snd].
    unfold sendMessage_begin. destruct (currentSession st); [|contradiction].
    cbn. rewrite orb_true_r. reflexivity.
Qed.

(** X10. A text submitted from the input is lost in two cases, the box
    being emptied in both. When the send fails, the current session is the
    one of before the submit, without the text, and the collection is as it
    was. When there is no current session, a session without messages is
    created and the text is in no session of the collection that was not
    there before. *)
Theorem handleSubmit_loses_text (env env' : Env) (r : FetchResult)
    (message : str) (st : State) :
  forallb is_white_space message = false -> loading st = false ->
  let box := (handleSubmit env env' r message st).1 in
  let st' := (handleSubmit env env' r message st).2 in
  box = []
  /\ (forall current, currentSession st = Some current -> failed r = true ->
        currentSession st' = Some current /\ sessions st' = sessions st
        /\ localStorage st' = localStorage st)
  /\ (currentSession st = None ->
        exists new, currentSession st' = Some new /\ messages new = []
          /\ sessions st' = new :: sessions st
          /\ requests st' = requests st).
Proof.
  intros Hw Hl.
  assert (Hb : blank message = false).
  { destruct (blank message) eqn:E; [|reflexivity].
    apply blank_spec in E. congruence. }
  unfold handleSubmit. rewrite Hb, Hl. cbn [orb fst snd].
  split; [reflexivity|split].
  - intros c Hc Hf. unfold sendMessage, sendMessage_begin. rewrite Hc.
    destruct r; try discriminate; repeat split.
  - intros Hc. unfold sendMessage, sendMessage_begin. rewrite Hc.
    eexists. repeat split.
Qed.

(** *** The search box of the sidebar *)

Lemma hit_narrow q q' s :
  (forall t, occurs (toLowerCase q') t -> occurs (toLowerCase q) t) ->
  hit q' s -> hit q s.
Proof.
  intros Ho. unfold hit.
  intros [Hh|(m & Hm & Hh)]; [left|right; exists m; split; [exact Hm|]]; apply Ho, Hh.
Qed.

(** A query of ASCII characters, in lower case, is a part of the lower case
    of every text it is a part of. *)
Lemma lower_part a q b t :
  forallb is_ascii q = true ->
  occurs (toLowerCase (a ++ q ++ b)) t -> occurs (toLowerCase q) t.
Proof.
  intros Hq Ho. destruct (toLowerCase_ascii_part a q b Hq) as (a' & b' & E).
  rewrite E in Ho. rewrite (toLowerCase_ascii q Hq).
  eapply occurs_within. exact Ho.
Qed.

Lemma search_sublist q q' st :
  (forall s, hit q' s -> hit q s) ->
  (blank q' = true -> blank q = true) ->
  sublist (searchSessions q' st) (searchSessions q st).
Proof.
  intros Hh Hb. unfold searchSessions.
  destruct (blank q') eqn:E'.
  - rewrite (Hb eq_refl). reflexivity.
  - destruct (blank q).
    + apply filter_sublist.
    + apply filter_sublist_impl. intros s. rewrite !matches_spec. apply Hh.
Qed.

Lemma filteredSessions_search q st : filteredSessions q st = searchSessions q st.
Proof. unfold filteredSessions. destruct q; reflexivity. Qed.

Lemma blank_upper_ascii q :
  forallb is_ascii q = true -> blank (toUpperCase q) = blank q.
Proof.
  intros Hq. rewrite (toUpperCase_ascii q Hq).
  assert (E : forallb is_white_space (ascii_upper <$> q) = forallb is_white_space q)
    by (apply forallb_fmap_ext, white_space_upper).
  destruct (blank q) eqn:Eq.
  - apply blank_spec. rewrite E. apply blank_spec. exact Eq.
  - destruct (blank (ascii_upper <$> q)) eqn:Eu; [|reflexivity].
    apply blank_spec in Eu. rewrite E in Eu. apply blank_spec in Eu. congruence.
Qed.

(** X11. What the sidebar lists for a query is what the search returns for
    it, a sub-list of the collection in its order, shown as the first three
    and the rest. For a query of ASCII characters, typing more, after or
    before what is typed, never adds a session to the list, and the case of
    the query makes no difference. *)
Theorem typing_narrows_the_list (q r : str) (st : State) :
  filteredSessions q st = searchSessions q st
  /\ sublist (filteredSessions q st) (sessions st)
  /\ recentSessions q st ++ olderSessions q st = filteredSessions q st
  /\ (forallb is_ascii q = true ->
        sublist (filteredSessions (q ++ r) st) (filteredSessions q st)
        /\ sublist (filteredSessions (r ++ q) st) (filteredSessions q st)
        /\ filteredSessions (toUpperCase q) st = filteredSessions q st).
Proof.
  rewrite !filteredSessions_search. split; [reflexivity|].
  split; [|split].
  - unfold searchSessions. destruct (blank q); [reflexivity|apply filter_sublist].
  - unfold recentSessions, olderSessions. rewrite filteredSessions_search. apply take_drop.
  - intros Hq. split; [|split].
    + apply search_sublist.
      * intros s. apply hit_narrow. intros t. apply (lower_part [] q r t Hq).
      * rewrite !blank_spec, forallb_app, andb_true_iff. tauto.
    + apply search_sublist.
      * intros s. apply hit_narrow. intros t Ho. apply (lower_part r q [] t Hq).
        rewrite app_nil_r. exact Ho.
      * rewrite !blank_spec, forallb_app, andb_true_iff. tauto.
    + unfold searchSessions. rewrite (blank_upper_ascii q Hq).
      destruct (blank q); [reflexivity|].
      apply List.filter_ext. intros s. unfold matches.
      rewrite (lower_upper_ascii q Hq). reflexivity.
Qed.

End WithCaseMapping.

(** Samples, evaluated with the mapping of the ASCII letters: their texts are
    ASCII. *)
Section Samples.
#[local] Existing Instance ascii_case_mapping.

(** A text between a line feed and a no-break space. *)
Lemma handleSubmit_sends_trimmed_witness :
  handleSubmit noon later (Reply (lit "Here is your itinerary"))
    ([10%N] ++ lit "  Kyoto in spring" ++ [160%N]) (sample (Some alice))
  = ([], sendMessage noon later (lit "Kyoto in spring")
           (Reply (lit "Here is your itinerary")) (sample (Some alice))).
Proof.
  destruct (handleSubmit_sends_trimmed noon later (Reply (lit "Here is your itinerary"))
              ([10%N] ++ lit "  Kyoto in spring" ++ [160%N]) (sample (Some alice)))
    as (_ & _ & Hw & _).
  destruct (Hw eq_refl eq_refl) as (E & _). exact E.
Defined.

Lemma handleSubmit_loses_text_witness :
  let res := handleSubmit noon later Rejected (lit "Kyoto in spring")
               (sample (Some alice)) in
  res.1 = [] /\ currentSession res.2 = Some fresh /\ sessions res.2 = [fresh; kyoto].
Proof.
  pose proof (handleSubmit_loses_text noon later Rejected (lit "Kyoto in spring")
                (sample (Some alice)) eq_refl eq_refl) as Hw.
  destruct Hw as (H1 & H2 & _).
  destruct (H2 fresh eq_refl eq_refl) as (H3 & H4 & _).
  split; [exact H1|split; [exact H3|exact H4]].
Defined.

(** The sample collection listed for "kyo", for "kyoto" and for "KYO". *)
Lemma typing_narrows_the_list_witness :
  sublist (filteredSessions (lit "kyo" ++ lit "to") (sample (Some alice)))
    (filteredSessions (lit "kyo") (sample (Some alice)))
  /\ filteredSessions (toUpperCase (lit "kyo")) (sample (Some alice))
     = filteredSessions (lit "kyo") (sample (Some alice)).
Proof.
  destruct (typing_narrows_the_list (lit "kyo") (lit "to") (sample (Some alice)))
    as (_ & _ & _ & Hw).
  destruct (Hw eq_refl) as (H1 & _ & H3). split; [exact H1|exact H3].
Defined.

End Samples.

End InputFacts.

(** ** The auth actions *)
Module AuthActionsFacts.
Import Js JsFacts JsDate Json Auth AuthFacts AuthActions.

(** Evaluation that leaves the keys of the storage as they are named. *)
Ltac eval_state := cbn -[guest_key user_key token_key sessions_prefix Chat.sessions_key].

Lemma check_ignores_cells st :
  checkExistingSession (initial (sessionStorage st) (localStorage st))
  = checkExistingSession st.
Proof. reflexivity. Qed.

(** X12. The check at startup is complete in one pass: run again on what it
    left (the next load of the page), it changes nothing. In particular the
    corrupted entries it removed leave a plain logged-out start. *)
Theorem checkExistingSession_idempotent (st : State) :
  checkExistingSession (checkExistingSession st) = checkExistingSession st
  /\ reload (checkExistingSession st) = checkExistingSession st.
Proof.
  assert (Hc : checkExistingSession (checkExistingSession st) = checkExistingSession st).
  { unfold checkExistingSession.
    destruct (sessionStorage st !! guest_key) as [[j|text]|] eqn:Eg; eval_state.
    - rewrite Eg. reflexivity.
    - destruct (truthy text) eqn:Et.
      + eval_state. rewrite !lookup_delete_eq. reflexivity.
      + destruct (localStorage st !! user_key) as [[j|text']|] eqn:Er; eval_state.
        * rewrite Eg, Er. eval_state. rewrite Et. reflexivity.
        * destruct (truthy text') eqn:Et'.
          -- eval_state. rewrite !lookup_delete_eq. reflexivity.
          -- eval_state. rewrite Eg, Er. eval_state. rewrite Et, Et'. reflexivity.
        * eval_state. rewrite Eg, Er. eval_state. rewrite Et. reflexivity.
    - destruct (localStorage st !! user_key) as [[j|text']|] eqn:Er; eval_state.
      + rewrite Eg, Er. reflexivity.
      + destruct (truthy text') eqn:Et'.
        * eval_state. rewrite !lookup_delete_eq. reflexivity.
        * eval_state. rewrite Eg, Er. eval_state. rewrite Et'. reflexivity.
      + rewrite Eg, Er. reflexivity. }
  split; [exact Hc|]. unfold reload. rewrite check_ignores_cells. exact Hc.
Qed.

(** *** Entering as a guest *)

Lemma lit_inj s t : lit s = lit t -> s = t.
Proof.
  revert t. induction s as [|c s IH]; intros [|d t]; eval_state; try discriminate.
  - reflexivity.
  - intros [= Hc Hs]. f_equal; [|apply IH, Hs].
    rewrite <- (ascii_N_embedding c), <- (ascii_N_embedding d), Hc. reflexivity.
Qed.

Lemma guestUser_inj n1 n2 : guestUser n1 = guestUser n2 -> n1 = n2.
Proof.
  unfold guestUser. intros [= E].
  apply lit_inj in E. apply (inj pretty) in E. exact E.
Qed.

(** X13. Entering as a guest needs no request and throws nothing. The guest
    is the user, marked as a guest, under an id made from the clock, so that
    entries at different clock readings make different guests. The guest is
    written to sessionStorage, the registered user and the token are removed
    from localStorage and no other key is touched; a reload of the page
    finds the same guest. *)
Theorem loginAsGuest_correct (now : Z) (st : State) :
  let o := loginAsGuest now st in
  thrown o = None /\ navigated o = None
  /\ user (after o) = Value (guestUser now)
  /\ (exists fields, user (after o) = Value (JObj fields)
        /\ jget (lit "isGuest") fields = Some (JBool true)
        /\ jget (lit "id") fields = Some (JStr (lit "guest_" ++ lit (pretty now))))
  /\ (forall now', guestUser now' = guestUser now -> now' = now)
  /\ localStorage (after o) !! user_key = None
  /\ localStorage (after o) !! token_key = None
  /\ (forall k, k <> user_key -> k <> token_key ->
        localStorage (after o) !! k = localStorage st !! k)
  /\ (forall k, k <> guest_key ->
        sessionStorage (after o) !! k = sessionStorage st !! k)
  /\ user (reload (after o)) = Value (guestUser now)
  /\ sessionStorage (reload (after o)) = sessionStorage (after o)
  /\ localStorage (reload (after o)) = localStorage (after o).
Proof.
  cbv zeta. split; [reflexivity|]. split; [reflexivity|]. split; [reflexivity|].
  split; [eexists; split; [reflexivity|split; reflexivity]|].
  split; [intros n; apply guestUser_inj|].
  split; [eval_state; rewrite lookup_delete_ne by discriminate; apply lookup_delete_eq|].
  split; [apply lookup_delete_eq|].
  split; [intros k H1 H2; eval_state; rewrite !lookup_delete_ne by congruence; reflexivity|].
  split; [intros k Hk; eval_state; rewrite lookup_insert_ne by congruence; reflexivity|].
  unfold reload, checkExistingSession. eval_state.
  rewrite lookup_insert_eq. eval_state. repeat split.
Qed.

(** *** Logging in and signing up *)

(** X14. A login or signup that is granted makes the [user] of the body the
    user, stores it and the token in localStorage, removes the guest entry,
    touches no other key of either storage, ends the loading and throws
    nothing. When the body has a user, a reload of the page finds that
    user, also when a guest had been there before, and changes neither
    storage. When the body has none, the user is [undefined] and the text
    stored for it is no JSON: a reload removes that entry, keeps the token
    and starts logged out. *)
Theorem granted_entry_survives_reload (signing_up : bool) (u : option json)
    (token : stored) (st : State) :
  let o := enter signing_up (Granted u token) st in
  thrown o = None /\ loading (after o) = false
  /\ localStorage (after o) !! token_key = Some token
  /\ sessionStorage (after o) !! guest_key = None
  /\ (forall k, k <> user_key -> k <> token_key ->
        localStorage (after o) !! k = localStorage st !! k)
  /\ (forall k, k <> guest_key ->
        sessionStorage (after o) !! k = sessionStorage st !! k)
  /\ (exists t, shown o = [t] /\ Chat.destructive t = false)
  /\ (forall j, u = Some j ->
        user (after o) = Value j
        /\ localStorage (after o) !! user_key = Some (Doc j)
        /\ user (reload (after o)) = Value j
        /\ localStorage (reload (after o)) = localStorage (after o)
        /\ sessionStorage (reload (after o)) = sessionStorage (after o))
  /\ (u = None ->
        user (after o) = Undefined
        /\ localStorage (after o) !! user_key = Some (NotJson (lit "undefined"))
        /\ user (reload (after o)) = Value JNull
        /\ localStorage (reload (after o)) !! user_key = None
        /\ localStorage (reload (after o)) !! token_key = Some token
        /\ (forall k, k <> user_key ->
              localStorage (reload (after o)) !! k = localStorage (after o) !! k)
        /\ sessionStorage (reload (after o)) = sessionStorage (after o)).
Proof.
  cbv zeta.
  assert (E : enter signing_up (Granted u token) st
              = submit (fallback_of signing_up)
                  (if signing_up then lit "Signup failed" else lit "Login failed")
                  (if signing_up then lit "Account created!" else lit "Welcome back!")
                  (if signing_up then lit "Welcome to AI Trip Planner."
                   else lit "Successfully logged in to your account.")
                  (Granted u token) st)
    by (destruct signing_up; reflexivity).
  rewrite E. cbn [submit after thrown shown user loading localStorage sessionStorage].
  split; [reflexivity|]. split; [reflexivity|].
  split; [apply lookup_insert_eq|].
  split; [apply lookup_delete_eq|].
  split; [intros k H1 H2; rewrite !lookup_insert_ne by congruence; reflexivity|].
  split; [intros k Hk; apply lookup_delete_ne; congruence|].
  split; [eexists; split; reflexivity|].
  split.
  - intros j ->. cbn [cell_of stringify_cell].
    split; [reflexivity|].
    split; [rewrite lookup_insert_ne by discriminate; apply lookup_insert_eq|].
    unfold reload, checkExistingSession.
    cbn [initial sessionStorage localStorage].
    rewrite lookup_delete_eq. cbn [present].
    rewrite lookup_insert_ne by discriminate. rewrite lookup_insert_eq. eval_state.
    repeat split.
  - intros ->. cbn [cell_of stringify_cell].
    split; [reflexivity|].
    split; [rewrite lookup_insert_ne by discriminate; apply lookup_insert_eq|].
    unfold reload, checkExistingSession.
    cbn [initial sessionStorage localStorage].
    rewrite lookup_delete_eq. cbn [present].
    rewrite lookup_insert_ne by discriminate. rewrite lookup_insert_eq. eval_state.
    split; [reflexivity|]. split; [apply lookup_delete_eq|].
    split; [rewrite lookup_delete_ne by discriminate; apply lookup_insert_eq|].
    split; [intros k Hk; apply lookup_delete_ne; congruence|].
    apply delete_delete_eq.
Qed.

(** X15. A login or signup that is not granted changes neither the user nor
    either storage; it ends the loading, shows one destructive toast and
    throws the error on to its caller. The message of both is the message
    of the server when the refusal carries one that is not empty, and the
    fallback of the action otherwise. *)
Theorem refused_entry_changes_nothing (signing_up : bool) (r : AuthResponse)
    (st : State) (m : str) :
  failure_message (fallback_of signing_up) r = Some m ->
  let o := enter signing_up r st in
  user (after o) = user st /\ loading (after o) = false
  /\ sessionStorage (after o) = sessionStorage st
  /\ localStorage (after o) = localStorage st
  /\ thrown o = Some m
  /\ shown o = [ {| Chat.toast_title := if signing_up then lit "Signup failed"
                                        else lit "Login failed";
                    Chat.toast_description := m;
                    Chat.destructive := true |} ]
  /\ (forall text, r = Refused (Some text) -> text <> [] -> m = text)
  /\ (r = Refused None \/ r = Refused (Some []) -> m = fallback_of signing_up).
Proof.
  intros Hm. cbv zeta.
  assert (E : enter signing_up r st
              = rejected (if signing_up then lit "Signup failed" else lit "Login failed")
                  m st).
  { destruct r as [x|x|x|u token]; cbn in Hm; [| | |discriminate];
      injection Hm as <-; destruct signing_up; reflexivity. }
  rewrite E. eval_state. repeat (split; [reflexivity|]). split.
  - intros text -> Hne. cbn in Hm. injection Hm as <-.
    destruct text; [contradiction|reflexivity].
  - intros [-> | ->]; cbn in Hm; injection Hm as <-; reflexivity.
Qed.

Lemma refused_entry_changes_nothing_witness :
  thrown (login (Refused None) broken_guest) = Some (lit "Invalid credentials")
  /\ localStorage (after (login (Refused None) broken_guest)) = localStorage broken_guest.
Proof.
  destruct (refused_entry_changes_nothing false (Refused None) broken_guest
              (lit "Invalid credentials") eq_refl)
    as (_ & _ & _ & Hl & Ht & _).
  split; [exact Ht|exact Hl].
Defined.

(** *** Logging out *)

Lemma sweep_prefixed m k : startsWith k sessions_prefix = true -> sweep m !! k = None.
Proof.
  intros Hk. unfold sweep. apply map_lookup_filter_None. right.
  intros x _. eval_state. rewrite Hk. discriminate.
Qed.

Lemma sweep_other m k : startsWith k sessions_prefix = false -> sweep m !! k = m !! k.
Proof.
  intros Hk. unfold sweep. destruct (m !! k) as [x|] eqn:E.
  - apply map_lookup_filter_Some. split; [exact E|exact Hk].
  - apply map_lookup_filter_None. left. exact E.
Qed.

(** X16. Logging out leaves no user, sends the browser to the entry page,
    and removes the registered user, the token, the guest entry and every
    stored collection of sessions, of whichever user; any other key of
    either storage is as it was. A reload then starts logged out without
    touching the storage, and the chat manager, started for any user over
    what is left, has no session to show. *)
Theorem logout_sweeps_every_collection (st : State) :
  let o := logout st in
  user (after o) = Value JNull /\ navigated o = Some (lit "/auth") /\ thrown o = None
  /\ localStorage (after o) !! user_key = None
  /\ localStorage (after o) !! token_key = None
  /\ sessionStorage (after o) !! guest_key = None
  /\ (forall k, startsWith k sessions_prefix = true -> localStorage (after o) !! k = None)
  /\ (forall k, startsWith k sessions_prefix = false -> k <> user_key -> k <> token_key ->
        localStorage (after o) !! k = localStorage st !! k)
  /\ (forall k, k <> guest_key -> sessionStorage (after o) !! k = sessionStorage st !! k)
  /\ user (reload (after o)) = Value JNull
  /\ sessionStorage (reload (after o)) = sessionStorage (after o)
  /\ localStorage (reload (after o)) = localStorage (after o)
  /\ (forall u, Chat.sessions (Chat.startup u (localStorage (after o))) = []
                /\ Chat.currentSession (Chat.startup u (localStorage (after o))) = None).
Proof.
  cbv zeta. cbn [logout after user navigated thrown localStorage sessionStorage].
  assert (Hu : sweep (delete token_key (delete user_key (localStorage st))) !! user_key = None).
  { rewrite sweep_other by reflexivity.
    rewrite lookup_delete_ne by discriminate. apply lookup_delete_eq. }
  split; [reflexivity|]. split; [reflexivity|]. split; [reflexivity|].
  split; [exact Hu|].
  split; [rewrite sweep_other by reflexivity; apply lookup_delete_eq|].
  split; [apply lookup_delete_eq|].
  split; [intros k Hk; apply sweep_prefixed, Hk|].
  split; [intros k Hk H1 H2; rewrite sweep_other by exact Hk;
          rewrite !lookup_delete_ne by congruence; reflexivity|].
  split; [intros k Hk; apply lookup_delete_ne; congruence|].
  assert (R : reload
                {| user := Value JNull; loading := loading st;
                   sessionStorage := delete guest_key (sessionStorage st);
                   localStorage := sweep (delete token_key (delete user_key (localStorage st))) |}
              = {| user := Value JNull; loading := false;
                   sessionStorage := delete guest_key (sessionStorage st);
                   localStorage := sweep (delete token_key (delete user_key (localStorage st))) |}).
  { unfold reload, checkExistingSession. eval_state. rewrite lookup_delete_eq. eval_state.
    rewrite Hu. reflexivity. }
  rewrite R. eval_state. split; [reflexivity|]. split; [reflexivity|]. split; [reflexivity|].
  intros u. unfold Chat.startup, Chat.onUser, Chat.loadSessions. eval_state.
  destruct u as [u|]; [|split; reflexivity].
  rewrite sweep_prefixed by exact (startsWith_app sessions_prefix (Chat.uid u)).
  eval_state. split; reflexivity.
Qed.

End AuthActionsFacts.

(** ** The shape of a title *)
Module TitleShapeFacts.
Import Js JsFacts JsDate Json Title TitleFacts Chat ChatFacts.
Import Components ComponentsFacts InputFacts.

Lemma split_fixed (f : N -> N) sep s :
  f <$> s = s -> Forall (fun w => f <$> w = w) (split sep s).
Proof.
  induction s as [|c r IH]; intros Hs; cbn [split].
  - repeat constructor.
  - rewrite fmap_cons in Hs. injection Hs as Hc Hr. specialize (IH Hr).
    destruct (decide (c = sep)); [constructor; [reflexivity|exact IH]|].
    destruct (split sep r) as [|w ws].
    + constructor; [cbn; rewrite Hc; reflexivity|constructor].
    + inversion IH; subst. constructor; [|assumption].
      rewrite fmap_cons. congruence.
Qed.

Lemma ascii_upper_no_space c : c <> space -> ascii_upper c <> space.
Proof.
  unfold ascii_upper, space. intros Hc.
  destruct (((97 <=? c) && (c <=? 122))%N) eqn:E; [|exact Hc].
  apply andb_true_iff in E. destruct E as [E1 E2]. apply N.leb_le in E1, E2. lia.
Qed.

Section WithCaseMapping.
Context `{CaseMapping}.

(** X17. For a message of ASCII characters, a title is the dated placeholder
    or "Trip to " followed by one word: a word without a space, of four
    characters or more, which in lower case is a part of the message in
    lower case and is no word of the stoplist. *)
Theorem title_is_one_word (today firstMessage : str) :
  forallb is_ascii firstMessage = true ->
  generateSessionTitle today firstMessage = lit "Trip Plan - " ++ today
  \/ exists w,
       generateSessionTitle today firstMessage = lit "Trip to " ++ w
       /\ free_of space w = true
       /\ 4 <= List.length w
       /\ occurs (toLowerCase w) (toLowerCase firstMessage)
       /\ toLowerCase w ∉ stoplist.
Proof.
  intros Hm. unfold generateSessionTitle.
  rewrite (toLowerCase_ascii firstMessage Hm).
  set (low := ascii_lower <$> firstMessage).
  assert (Hlow : ascii_lower <$> low = low).
  { subst low. rewrite <- list_fmap_compose. apply list_fmap_ext.
    intros _ c _. apply ascii_lower_lower. }
  assert (Hasc : forallb is_ascii low = true)
    by (apply forallb_fmap_ascii; [apply ascii_lower_ascii|exact Hm]).
  pose proof (filter_first is_destination (split space low)) as Hf.
  destruct (List.filter _ _) as [|d rest]; [left; reflexivity|right].
  destruct Hf as (pre & post & E & _ & Hd).
  assert (Hin : d ∈ split space low).
  { rewrite E. apply elem_of_app. right. left. }
  assert (Hfix : ascii_lower <$> d = d).
  { pose proof (split_fixed ascii_lower space low Hlow) as L.
    rewrite Forall_forall in L. apply L, Hin. }
  assert (Hda : forallb is_ascii d = true).
  { pose proof (split_forallb is_ascii space low Hasc) as L.
    rewrite Forall_forall in L. apply L, Hin. }
  assert (Hfree : free_of space d = true).
  { pose proof (split_free space low) as F.
    rewrite Forall_forall in F. apply F, Hin. }
  apply is_destination_true in Hd.
  assert (Hlen : 4 <= List.length d).
  { unfold discarded in Hd.
    destruct (le_lt_dec (List.length d) 3); [exfalso; apply Hd; left; assumption|lia]. }
  rewrite (capitalize_ascii d Hda).
  destruct d as [|c r]; [cbn in Hlen; lia|].
  cbn [charAt0 slice1 fmap list_fmap app].
  assert (Hwa : forallb is_ascii (ascii_upper c :: r) = true).
  { cbn in Hda |- *. apply andb_true_iff in Hda. destruct Hda as [Hc Hr].
    rewrite (ascii_upper_ascii c Hc), Hr. reflexivity. }
  assert (Hwl : toLowerCase (ascii_upper c :: r) = c :: r).
  { rewrite (toLowerCase_ascii _ Hwa), fmap_cons, ascii_lower_upper.
    rewrite fmap_cons in Hfix. exact Hfix. }
  exists (ascii_upper c :: r). split; [reflexivity|].
  split; [|split; [exact Hlen|split]].
  - unfold free_of in *. cbn in Hfree |- *.
    apply andb_true_iff in Hfree. destruct Hfree as [Hc Hr].
    rewrite Hr, andb_true_r. apply negb_true_iff, bool_decide_eq_false.
    apply ascii_upper_no_space.
    apply negb_true_iff, bool_decide_eq_false in Hc. exact Hc.
  - rewrite Hwl.
    pose proof (occurs_token space _ (c :: r) Hin) as O.
    rewrite join_split in O. exact O.
  - rewrite Hwl. intros Hs. apply Hd. right. exact Hs.
Qed.

End WithCaseMapping.

(** Samples, evaluated with the mapping of the ASCII letters: their texts are
    ASCII. *)
Section Samples.
#[local] Existing Instance ascii_case_mapping.

Lemma title_is_one_word_witness :
  exists w,
    generateSessionTitle (lit "11/14/2023") (lit "I want to visit Kyoto this spring")
    = lit "Trip to " ++ w
    /\ free_of space w = true.
Proof.
  destruct (title_is_one_word (lit "11/14/2023")
              (lit "I want to visit Kyoto this spring") eq_refl)
    as [E|(w & E & Hw & _)]; [discriminate E|].
  exists w. split; [exact E|exact Hw].
Defined.

End Samples.

End TitleShapeFacts.

(** ** Operations during the await of a send *)
Module AwaitFacts.
Import Js JsFacts JsDate Json Title Chat ChatFacts PersistenceFacts.
Import ChatRuns ChatRunsFacts ChatIdsFacts ChatOpsFacts ChatMoreFacts.

Section WithCaseMapping.
Context `{CaseMapping}.

(** X18. What runs during the await of a send. When the fetch fails, the
    session of the call becomes the current one again and the collection and
    the storage are left as the operations in between made them. When the
    fetch is answered, the collection becomes the one of before the call
    with the answered session in it, and is saved as such: the ids are those
    of before the call, so sessions created or deleted in between are back
    to what they were. With nothing in between this is [sendMessage]. *)
Theorem send_settles_over_what_ran (env env' : Env) (text : str)
    (r : FetchResult) (during : list Op) (st : State) (current : ChatSession) :
  currentSession st = Some current ->
  let between := runs during (sendMessage_begin env text st).1 in
  let st' := sendMessage_during env env' text r during st in
  sendMessage_during env env' text r [] st = sendMessage env env' text r st
  /\ loading st' = false /\ isTyping st' = false
  /\ (failed r = true ->
        currentSession st' = Some current
        /\ sessions st' = sessions between
        /\ localStorage st' = localStorage between)
  /\ (failed r = false ->
        session_ids st' = session_ids st
        /\ (exists final, currentSession st' = Some final /\ sid final = sid current
              /\ sessions st' = replace_session (sid current) final (sessions st))
        /\ forall u, user st = Some u ->
             localStorage st' !! sessions_key (Some u)
             = Some (Doc (sessionsJSON (sessions st')))).
Proof.
  intros Hc. cbv zeta. unfold sendMessage_during, sendMessage, sendMessage_begin.
  rewrite Hc. cbn [fst snd runs fold_left].
  split; [reflexivity|].
  destruct r; cbn; (split; [reflexivity|]); (split; [reflexivity|]);
    (split; [intros Hf; try discriminate; repeat split|intros Hf; try discriminate]).
  split; [unfold session_ids; cbn; apply replace_session_ids; reflexivity|].
  split; [eexists; repeat split|].
  intros u Hu. rewrite Hu. apply saveSessions_lookup.
Qed.

End WithCaseMapping.

(** Samples, evaluated with the mapping of the ASCII letters: their texts are
    ASCII. *)
Section Samples.
#[local] Existing Instance ascii_case_mapping.

Lemma send_settles_over_what_ran_witness :
  let st' := sendMessage_during noon later (lit "Kyoto in spring")
               (Reply (lit "Here is your itinerary"))
               [DeleteSession (sid kyoto)] (sample (Some alice)) in
  session_ids st' = [sid fresh; sid kyoto].
Proof.
  destruct (send_settles_over_what_ran noon later (lit "Kyoto in spring")
              (Reply (lit "Here is your itinerary")) [DeleteSession (sid kyoto)]
              (sample (Some alice)) fresh eq_refl) as (_ & _ & _ & _ & Hw).
  destruct (Hw eq_refl) as (Hi & _). exact Hi.
Defined.

End Samples.

End AwaitFacts.
